(** * The simulation state engine of the financial-simulation front end

    A shallow embedding of
      - [frontend/src/utils/calculations.ts]   (valuation and formatting),
      - [frontend/src/store/simulationStore.ts] (the zustand store and its
        [persist] options),
      - the two handlers of [components/forms/InputField.tsx] that gate the
        store's actions by role,
    followed by the properties of the specification that concern them.

    JavaScript numbers are IEEE 754 binary64 values: they are Rocq's primitive
    [float]s, whose operations are specified by [FloatAxioms] over
    [SpecFloat].  The timer's counters only ever hold the integers
    0, 1, 2, ... (they start at 0 and are only incremented by 1 or reset),
    far below 2^53 where binary64 arithmetic on integers is exact; they are
    modelled in [Z].  A JavaScript string is a Rocq [string], one character
    per code unit (code units below 256). *)

From Stdlib Require Import ZArith Floats Ascii String DecimalString DecimalN DecimalZ Lia.
From stdpp Require Import gmap strings.

Local Open Scope Z_scope.

(** ** The JavaScript built-ins the sources call *)

Module JS.

(** *** Numbers *)

(** ToBoolean on a number: [NaN], [+0] and [-0] are falsy. *)
Definition truthy (x : float) : bool := negb (is_nan x || is_zero x).

(** [x || y] on numbers. *)
Definition logicalOr (x y : float) : float := if truthy x then x else y.

(** [x >= y]: false when either side is [NaN]. *)
Definition geb (x y : float) : bool := (y <=? x)%float.

(** [Math.min(x, y)]: [NaN] if either argument is [NaN]; [-0] is below
    [+0]. *)
Definition Math_min (x y : float) : float :=
  if is_nan x || is_nan y then nan
  else if (x <? y)%float then x
  else if (y <? x)%float then y
  else if get_sign x then x else y.

(** The exact value [m * 2^e] of a finite binary64 number, as a fraction
    [num / den] with [den] a power of two. *)
Definition exact_num (m : positive) (e : Z) : Z :=
  if 0 <=? e then Zpos m * 2 ^ e else Zpos m.
Definition exact_den (e : Z) : Z :=
  if 0 <=? e then 1 else 2 ^ (- e).

(** *** Decimal numerals *)

Definition isDigit (c : ascii) : bool :=
  let n := N_of_ascii c in ((48 <=? n) && (n <=? 57))%N.

Definition digitVal (c : ascii) : Z := Z.of_N (N_of_ascii c) - 48.

(** The decimal numeral of a natural number, ["0"] for zero. *)
Definition digitsOf (n : Z) : string :=
  NilZero.string_of_uint (N.to_uint (Z.to_N n)).

(** Number::toString on an integer. *)
Definition intToString (n : Z) : string :=
  NilZero.string_of_int (Z.to_int n).

Fixpoint replicate0 (n : nat) : string :=
  match n with
  | O => EmptyString
  | S k => String "0" (replicate0 k)
  end.

(** [s.padStart(n, '0')]. *)
Definition padStart0 (s : string) (n : nat) : string :=
  replicate0 (n - String.length s) +:+ s.

(** *** Decimal text to binary64 *)

(** [n / d] rounded to the nearest binary64 value, ties to even: the quotient
    is computed with more than 64 significant bits and a sticky bit, then
    rounded once. *)
Definition round_ratio (neg : bool) (n d : positive) : spec_float :=
  let k := Z.max 0 (64 + Z.log2_up (Zpos d) - Z.log2 (Zpos n)) in
  let (q, r) := Z.div_eucl (Z.shiftl (Zpos n) k) (Zpos d) in
  let m := 2 * q + (if r =? 0 then 0 else 1) in
  binary_normalize prec emax (if neg then - m else m) (- (k + 1)) neg.

(** The binary64 value nearest to [(-1)^neg * m * 10^e]. *)
Definition decimal_to_float (neg : bool) (m : Z) (e : Z) : float :=
  match m with
  | Zpos p =>
      if 0 <=? e
      then SF2Prim (binary_normalize prec emax
                      (if neg then - (m * 10 ^ e) else m * 10 ^ e) 0 neg)
      else SF2Prim (round_ratio neg p (Z.to_pos (10 ^ (- e))))
  | _ => if neg then neg_zero else PrimFloat.zero
  end.

(** *** parseFloat *)

(** White space and line terminators that [parseFloat] skips: TAB, LF, VT,
    FF, CR, SP and NBSP. *)
Definition isWhiteSpace (c : ascii) : bool :=
  let n := N_of_ascii c in
  (((9 <=? n) && (n <=? 13)) || (n =? 32) || (n =? 160))%N.

Fixpoint trimStart (s : string) : string :=
  match s with
  | String c r => if isWhiteSpace c then trimStart r else s
  | EmptyString => s
  end.

(** Reads the longest run of decimal digits: its value (continuing [acc]),
    its length, and the rest of the text. *)
Fixpoint scanDigits (s : string) (acc : Z) (len : Z) : Z * Z * string :=
  match s with
  | String c r =>
      if isDigit c then scanDigits r (10 * acc + digitVal c) (len + 1)
      else (acc, len, s)
  | EmptyString => (acc, len, s)
  end.

(** The exponent part [e|E (+|-)? digits] if the text starts with one, and
    0 otherwise (an [e] that no digit follows is not part of the numeral). *)
Definition scanExponent (s : string) : Z :=
  match s with
  | String c r =>
      if (Ascii.eqb c "e" || Ascii.eqb c "E")%bool then
        let '(neg, r') :=
          match r with
          | String "-" t => (true, t)
          | String "+" t => (false, t)
          | _ => (false, r)
          end in
        let '(v, len, _) := scanDigits r' 0 0 in
        if len =? 0 then 0 else if neg then - v else v
      else 0
  | EmptyString => 0
  end.

(** [parseFloat(s)]: skips leading white space, then reads the longest prefix
    that is a decimal literal ([Infinity], digits with an optional fraction
    and exponent, an optional sign); [NaN] when there is none. *)
Definition parseFloat (input : string) : float :=
  let s := trimStart input in
  let '(neg, s0) :=
    match s with
    | String "-" t => (true, t)
    | String "+" t => (false, t)
    | _ => (false, s)
    end in
  if String.prefix "Infinity" s0 then (if neg then neg_infinity else infinity)
  else
    let '(ip, iplen, s1) := scanDigits s0 0 0 in
    let '(m, fplen, s2) :=
      match s1 with
      | String "." t => scanDigits t ip 0
      | _ => (ip, 0, s1)
      end in
    if (iplen =? 0) && (fplen =? 0) then nan
    else decimal_to_float neg m (scanExponent s2 - fplen).

(** *** Number::toString for the integers at or above 10^21 *)

(** The number of decimal digits of a positive integer. *)
Definition decimalLength (n : Z) : Z := Z.of_nat (String.length (digitsOf n)).

Fixpoint stripTrailingZeros (n : Z) (fuel : nat) : Z :=
  match fuel with
  | O => n
  | S k => if (n mod 10 =? 0) && negb (n =? 0)
           then stripTrailingZeros (n / 10) k else n
  end.

(** The integer nearest to [X] among the multiples of [10^(nd-k)] that round
    to the same binary64 value as [X], if there is one ([k] significant
    digits, [nd] the number of digits of [X]). *)
Definition shortestAt (X nd k : Z) : option Z :=
  let scale := 10 ^ (nd - k) in
  let lo := (X / scale) * scale in
  let hi := lo + scale in
  let same V :=
    match binary_normalize prec emax V 0 false,
          binary_normalize prec emax X 0 false with
    | S754_finite _ m1 e1, S754_finite _ m2 e2 =>
        Pos.eqb m1 m2 && (e1 =? e2)
    | _, _ => false
    end in
  let lo_ok := same lo in
  let hi_ok := same hi in
  if lo_ok && hi_ok then
    (if X - lo <? hi - X then Some lo
     else if hi - X <? X - lo then Some hi
     else if Z.even (X / scale) then Some lo else Some hi)
  else if lo_ok then Some lo
  else if hi_ok then Some hi
  else None.

Fixpoint shortestFrom (X nd k : Z) (fuel : nat) : Z :=
  match fuel with
  | O => X
  | S f =>
      match shortestAt X nd k with
      | Some V => V
      | None => shortestFrom X nd (k + 1) f
      end
  end.

(** Number::toString(x) for a binary64 integer [X >= 10^21]: the shortest
    digit string that reads back as [X], in exponential notation. *)
Definition largeToString (X : Z) : string :=
  let V := shortestFrom X (decimalLength X) 1 17 in
  let n := decimalLength V in
  let s := digitsOf (stripTrailingZeros V (Z.to_nat n)) in
  match s with
  | String d EmptyString => String d ("e+" +:+ digitsOf (n - 1))
  | String d rest => String d ("." +:+ rest +:+ "e+" +:+ digitsOf (n - 1))
  | EmptyString => s
  end.

(** *** Number.prototype.toFixed *)

(** The digits of the integer [n] with a decimal point before the last [f]
    of them, padded with zeros on the left so that a digit precedes the
    point. *)
Definition placePoint (n : Z) (f : nat) : string :=
  let m := digitsOf n in
  match f with
  | O => m
  | S _ =>
      let m' := replicate0 (S f - String.length m) +:+ m in
      let k := String.length m' in
      String.substring 0 (k - f) m' +:+ "." +:+ String.substring (k - f) f m'
  end.

(** [x.toFixed(f)]: the text of a non-finite [x]; Number::toString of [x]
    when its magnitude is at least 10^21; otherwise the integer [n] nearest
    to [x * 10^f] (the larger one at a tie, on the magnitude), written with
    [f] decimals. *)
Definition toFixed (x : float) (f : nat) : string :=
  match Prim2SF x with
  | S754_nan => "NaN"
  | S754_infinity s => if s then "-Infinity" else "Infinity"
  | S754_zero _ => placePoint 0 f
  | S754_finite s m e =>
      let num := exact_num m e in
      let den := exact_den e in
      let sign := if s then "-" else EmptyString in
      if 10 ^ 21 * den <=? num then sign +:+ largeToString (num / den)
      else
        let n := (2 * num * 10 ^ Z.of_nat f + den) / (2 * den) in
        sign +:+ placePoint n f
  end.

End JS.

(** ** [types/simulation.ts] *)

(** [SimulationData]: four numeric fields and two text fields.  The store
    writes a text field with whatever it is given ([string | number]), so the
    text fields hold a [value]. *)
Inductive value :=
  | VStr (s : string)
  | VNum (x : float).

Record SimulationData := mkSimulationData {
  ebitda : float;
  interestRate : float;
  multiple : float;
  factorScore : float;
  companyName : value;
  description : value
}.

(** [SimulationField = keyof SimulationData]. *)
Inductive SimulationField :=
  | F_ebitda | F_interestRate | F_multiple | F_factorScore
  | F_companyName | F_description.

(** The property name a field stands for. *)
Definition fieldKey (f : SimulationField) : string :=
  match f with
  | F_ebitda => "ebitda"
  | F_interestRate => "interestRate"
  | F_multiple => "multiple"
  | F_factorScore => "factorScore"
  | F_companyName => "companyName"
  | F_description => "description"
  end.

(** [FieldToggleStatus = 'TBD' | 'OK']. *)
Inductive FieldToggleStatus := TBD | OK.

Record ValuationData := mkValuationData {
  amount : float;
  percentage : float;
  maxValuation : float
}.

Record TimerData := mkTimerData {
  hours : Z;
  minutes : Z;
  seconds : Z;
  totalSeconds : Z
}.

Inductive Role := team1 | team2.

Record UserData := mkUserData {
  name : string;
  role : Role
}.

(** [AppState]; [fieldStatus] is an object keyed by property names. *)
Record AppState := mkAppState {
  simulation : SimulationData;
  fieldStatus : gmap string FieldToggleStatus;
  valuation : ValuationData;
  timer : TimerData;
  user : UserData;
  isFirstTimeGuidanceOpen : bool;
  isVideoModalOpen : bool;
  isTextModalOpen : bool
}.

(** ** [utils/calculations.ts] *)

Definition MAX_VALUATION : float := 1000000000%float.

Definition calculateValuation (data : SimulationData) : ValuationData :=
  let amount := (ebitda data * multiple data * factorScore data)%float in
  let percentage :=
    JS.Math_min ((amount / MAX_VALUATION) * 100)%float 100%float in
  {| amount := amount; percentage := percentage; maxValuation := MAX_VALUATION |}.

Definition formatCurrency (amount : float) : string :=
  if JS.geb amount 1000000000 then
    "$" +:+ JS.toFixed (amount / 1000000000)%float 1 +:+ "B"
  else if JS.geb amount 1000000 then
    "$" +:+ JS.toFixed (amount / 1000000)%float 0 +:+ " million"
  else if JS.geb amount 1000 then
    "$" +:+ JS.toFixed (amount / 1000)%float 0 +:+ "K"
  else
    "$" +:+ JS.toFixed amount 0.

(** [formatTime]; on integers [Math.floor(a / b)] is [Z.div] for a positive
    [b], and [%] is the remainder with the sign of the dividend, [Z.rem]. *)
Definition formatTime (totalSeconds : Z) : string :=
  let hours := totalSeconds / 3600 in
  let minutes := Z.rem totalSeconds 3600 / 60 in
  let seconds := Z.rem totalSeconds 60 in
  let pad (num : Z) := JS.padStart0 (JS.intToString num) 2 in
  pad hours +:+ ":" +:+ pad minutes +:+ ":" +:+ pad seconds.

(** ** [store/simulationStore.ts] *)

Definition initialSimulationData : SimulationData :=
  {| ebitda := 10;
     interestRate := 20;
     multiple := 10;
     factorScore := 3;
     companyName := VStr "ABC Corp.";
     description := VStr "This is the company's description. This company is #1!" |}.

(** [Object.keys(initialSimulationData)], in insertion order. *)
Definition simulationKeys : list string :=
  ["ebitda"; "interestRate"; "multiple"; "factorScore"; "companyName";
   "description"].

(** [Object.keys(...).reduce((acc, key) => { acc[key] = ...; return acc }, {})]. *)
Definition initialFieldStatus : gmap string FieldToggleStatus :=
  foldl (fun acc key =>
           <[key := if String.eqb key "description" then TBD else OK]> acc)
        ∅ simulationKeys.

Definition initialTimer : TimerData :=
  {| hours := 0; minutes := 0; seconds := 0; totalSeconds := 0 |}.

Definition initialState : AppState :=
  {| simulation := initialSimulationData;
     fieldStatus := initialFieldStatus;
     valuation := calculateValuation initialSimulationData;
     timer := initialTimer;
     user := {| name := "John Doe"; role := team1 |};
     isFirstTimeGuidanceOpen := true;
     isVideoModalOpen := false;
     isTextModalOpen := false |}.


(** [parseFloat(String(value))].  For a number, [String] prints the shortest
    decimal text that reads back as the same binary64 value, so the
    composition returns the number itself, except that [-0] prints as ["0"]
    and reads back as [+0] ([NaN] and the infinities print as text that
    [parseFloat] reads back as themselves). *)
Definition parseFloatString (v : value) : float :=
  match v with
  | VStr s => JS.parseFloat s
  | VNum x => if is_zero x then PrimFloat.zero else x
  end.

(** [parseFloat(String(value)) || state.simulation[field] || 0]. *)
Definition processNumeric (v : value) (previous : float) : float :=
  JS.logicalOr (JS.logicalOr (parseFloatString v) previous) 0%float.

(** The processed value of a text field: the raw value as it is, unless the
    field currently holds a number ([typeof state.simulation[field] ===
    'number']), in which case it is processed as a numeric field. *)
Definition processText (v : value) (previous : value) : value :=
  match previous with
  | VNum p => VNum (processNumeric v p)
  | VStr _ => v
  end.

(** [{ ...state.simulation, [field]: processedValue }]. *)
Definition newSimulation (field : SimulationField) (v : value)
    (sim : SimulationData) : SimulationData :=
  match field with
  | F_ebitda =>
      {| ebitda := processNumeric v (ebitda sim);
         interestRate := interestRate sim; multiple := multiple sim;
         factorScore := factorScore sim; companyName := companyName sim;
         description := description sim |}
  | F_interestRate =>
      {| ebitda := ebitda sim;
         interestRate := processNumeric v (interestRate sim);
         multiple := multiple sim; factorScore := factorScore sim;
         companyName := companyName sim; description := description sim |}
  | F_multiple =>
      {| ebitda := ebitda sim; interestRate := interestRate sim;
         multiple := processNumeric v (multiple sim);
         factorScore := factorScore sim; companyName := companyName sim;
         description := description sim |}
  | F_factorScore =>
      {| ebitda := ebitda sim; interestRate := interestRate sim;
         multiple := multiple sim;
         factorScore := processNumeric v (factorScore sim);
         companyName := companyName sim; description := description sim |}
  | F_companyName =>
      {| ebitda := ebitda sim; interestRate := interestRate sim;
         multiple := multiple sim; factorScore := factorScore sim;
         companyName := processText v (companyName sim);
         description := description sim |}
  | F_description =>
      {| ebitda := ebitda sim; interestRate := interestRate sim;
         multiple := multiple sim; factorScore := factorScore sim;
         companyName := companyName sim;
         description := processText v (description sim) |}
  end.

(** *** The actions; [set] merges the returned fields into the state *)

Definition updateSimulationField (field : SimulationField) (v : value)
    (state : AppState) : AppState :=
  let sim := newSimulation field v (simulation state) in
  {| simulation := sim;
     fieldStatus := fieldStatus state;
     valuation := calculateValuation sim;
     timer := timer state;
     user := user state;
     isFirstTimeGuidanceOpen := isFirstTimeGuidanceOpen state;
     isVideoModalOpen := isVideoModalOpen state;
     isTextModalOpen := isTextModalOpen state |}.

Definition updateFieldStatus (field : SimulationField)
    (status : FieldToggleStatus) (state : AppState) : AppState :=
  {| simulation := simulation state;
     fieldStatus := <[fieldKey field := status]> (fieldStatus state);
     valuation := valuation state;
     timer := timer state;
     user := user state;
     isFirstTimeGuidanceOpen := isFirstTimeGuidanceOpen state;
     isVideoModalOpen := isVideoModalOpen state;
     isTextModalOpen := isTextModalOpen state |}.

Definition setTimer (t : TimerData) (state : AppState) : AppState :=
  {| simulation := simulation state;
     fieldStatus := fieldStatus state;
     valuation := valuation state;
     timer := t;
     user := user state;
     isFirstTimeGuidanceOpen := isFirstTimeGuidanceOpen state;
     isVideoModalOpen := isVideoModalOpen state;
     isTextModalOpen := isTextModalOpen state |}.

Definition incrementTimer (state : AppState) : AppState :=
  let newTotalSeconds := totalSeconds (timer state) + 1 in
  let hours := newTotalSeconds / 3600 in
  let minutes := Z.rem newTotalSeconds 3600 / 60 in
  let seconds := Z.rem newTotalSeconds 60 in
  setTimer {| hours := hours; minutes := minutes; seconds := seconds;
              totalSeconds := newTotalSeconds |} state.

Definition resetTimer (state : AppState) : AppState :=
  setTimer {| hours := 0; minutes := 0; seconds := 0; totalSeconds := 0 |} state.

Definition setFlags (guidance video text : bool) (state : AppState) : AppState :=
  {| simulation := simulation state;
     fieldStatus := fieldStatus state;
     valuation := valuation state;
     timer := timer state;
     user := user state;
     isFirstTimeGuidanceOpen := guidance;
     isVideoModalOpen := video;
     isTextModalOpen := text |}.

Definition toggleFirstTimeGuidance (state : AppState) : AppState :=
  setFlags (negb (isFirstTimeGuidanceOpen state))
           (isVideoModalOpen state) (isTextModalOpen state) state.

Definition openVideoModal (state : AppState) : AppState :=
  setFlags (isFirstTimeGuidanceOpen state) true (isTextModalOpen state) state.
Definition closeVideoModal (state : AppState) : AppState :=
  setFlags (isFirstTimeGuidanceOpen state) false (isTextModalOpen state) state.
Definition openTextModal (state : AppState) : AppState :=
  setFlags (isFirstTimeGuidanceOpen state) (isVideoModalOpen state) true state.
Definition closeTextModal (state : AppState) : AppState :=
  setFlags (isFirstTimeGuidanceOpen state) (isVideoModalOpen state) false state.

Definition setUser (u : UserData) (state : AppState) : AppState :=
  {| simulation := simulation state;
     fieldStatus := fieldStatus state;
     valuation := valuation state;
     timer := timer state;
     user := u;
     isFirstTimeGuidanceOpen := isFirstTimeGuidanceOpen state;
     isVideoModalOpen := isVideoModalOpen state;
     isTextModalOpen := isTextModalOpen state |}.

Definition setUserRole (r : Role) (state : AppState) : AppState :=
  setUser {| name := name (user state); role := r |} state.

Definition setUserName (n : string) (state : AppState) : AppState :=
  setUser {| name := n; role := role (user state) |} state.

Definition resetSimulation (state : AppState) : AppState :=
  {| simulation := initialSimulationData;
     fieldStatus := initialFieldStatus;
     valuation := calculateValuation initialSimulationData;
     timer := {| hours := 0; minutes := 0; seconds := 0; totalSeconds := 0 |};
     user := user state;
     isFirstTimeGuidanceOpen := isFirstTimeGuidanceOpen state;
     isVideoModalOpen := isVideoModalOpen state;
     isTextModalOpen := isTextModalOpen state |}.

(** *** The [persist] options and the middleware around them

    [persist(..., { name: 'simulation-storage', partialize })] writes, on every
    [set], the JSON text of [{ state: partialize(state), version: 0 }] under
    the key [name] of the browser's local storage, and merges the stored
    [state] over the initial state when the store is created.  The stored text
    is represented by the JSON document it denotes. *)

Record PersistedState := mkPersistedState {
  persistedGuidance : bool;
  persistedUser : UserData
}.

Definition partialize (state : AppState) : PersistedState :=
  {| persistedGuidance := isFirstTimeGuidanceOpen state;
     persistedUser := user state |}.

#[warnings="-register-all"]
Inductive json :=
  | JBool (b : bool)
  | JNum (n : Z)
  | JStr (s : string)
  | JObj (fields : list (string * json)).

Definition storageName : string := "simulation-storage".

Definition roleText (r : Role) : string :=
  match r with team1 => "team1" | team2 => "team2" end.

Definition userToJson (u : UserData) : json :=
  JObj [("name", JStr (name u)); ("role", JStr (roleText (role u)))].

Definition persistedToJson (p : PersistedState) : json :=
  JObj [("isFirstTimeGuidanceOpen", JBool (persistedGuidance p));
        ("user", userToJson (persistedUser p))].

(** The property [k] of an object. *)
Fixpoint jsonLookup (k : string) (fields : list (string * json)) : option json :=
  match fields with
  | [] => None
  | (k', v) :: rest => if String.eqb k k' then Some v else jsonLookup k rest
  end.

Definition jsonField (k : string) (j : json) : option json :=
  match j with
  | JObj fields => jsonLookup k fields
  | _ => None
  end.

Definition roleOfText (s : string) : option Role :=
  if String.eqb s "team1" then Some team1
  else if String.eqb s "team2" then Some team2
  else None.

Definition userOfJson (j : json) : option UserData :=
  match jsonField "name" j, jsonField "role" j with
  | Some (JStr n), Some (JStr r) =>
      match roleOfText r with
      | Some r' => Some {| name := n; role := r' |}
      | None => None
      end
  | _, _ => None
  end.

Definition persistedOfJson (j : json) : option PersistedState :=
  match jsonField "isFirstTimeGuidanceOpen" j, jsonField "user" j with
  | Some (JBool b), Some u =>
      match userOfJson u with
      | Some u' => Some {| persistedGuidance := b; persistedUser := u' |}
      | None => None
      end
  | _, _ => None
  end.

(** [setItem(name, { state, version: 0 })]. *)
Definition save (p : PersistedState) (storage : gmap string json)
    : gmap string json :=
  <[storageName := JObj [("state", persistedToJson p); ("version", JNum 0)]]>
    storage.

(** [getItem(name)], kept when its version is the store's (0).  The store
    only ever writes records of the shape [partialize] produces; a stored
    document of another shape is outside this typed model and is read as
    absent. *)
Definition load (storage : gmap string json) : option PersistedState :=
  match storage !! storageName with
  | Some doc =>
      match jsonField "version" doc, jsonField "state" doc with
      | Some (JNum 0), Some st => persistedOfJson st
      | _, _ => None
      end
  | None => None
  end.

(** The default [merge]: [{ ...currentState, ...persistedState }]. *)
Definition merge (p : PersistedState) (state : AppState) : AppState :=
  {| simulation := simulation state;
     fieldStatus := fieldStatus state;
     valuation := valuation state;
     timer := timer state;
     user := persistedUser p;
     isFirstTimeGuidanceOpen := persistedGuidance p;
     isVideoModalOpen := isVideoModalOpen state;
     isTextModalOpen := isTextModalOpen state |}.

(** The state the store starts in, given what local storage holds. *)
Definition hydrate (storage : gmap string json) : AppState :=
  match load storage with
  | Some p => merge p initialState
  | None => initialState
  end.

(** ** [components/forms/InputField.tsx]: the role-gated handlers *)

Definition isTeam1 (state : AppState) : bool :=
  match role (user state) with team1 => true | team2 => false end.

Definition isTeam2 (state : AppState) : bool :=
  match role (user state) with team2 => true | team1 => false end.

Definition handleValueChange (field : SimulationField) (newValue : value)
    (state : AppState) : AppState :=
  if negb (isTeam1 state) then state
  else updateSimulationField field newValue state.

Definition handleStatusToggle (field : SimulationField)
    (newStatus : FieldToggleStatus) (state : AppState) : AppState :=
  if negb (isTeam2 state) then state
  else updateFieldStatus field newStatus state.

(** ** The states the store can be in *)

Inductive Action :=
  | UpdateSimulationField (field : SimulationField) (v : value)
  | UpdateFieldStatus (field : SimulationField) (status : FieldToggleStatus)
  | IncrementTimer
  | ResetTimer
  | ToggleFirstTimeGuidance
  | OpenVideoModal
  | CloseVideoModal
  | OpenTextModal
  | CloseTextModal
  | SetUserRole (r : Role)
  | SetUserName (n : string)
  | ResetSimulation.

Definition dispatch (a : Action) (state : AppState) : AppState :=
  match a with
  | UpdateSimulationField field v => updateSimulationField field v state
  | UpdateFieldStatus field status => updateFieldStatus field status state
  | IncrementTimer => incrementTimer state
  | ResetTimer => resetTimer state
  | ToggleFirstTimeGuidance => toggleFirstTimeGuidance state
  | OpenVideoModal => openVideoModal state
  | CloseVideoModal => closeVideoModal state
  | OpenTextModal => openTextModal state
  | CloseTextModal => closeTextModal state
  | SetUserRole r => setUserRole r state
  | SetUserName n => setUserName n state
  | ResetSimulation => resetSimulation state
  end.

(** A state is reachable when a run of actions leads to it from the state the
    store is created in. *)
Inductive reachable : AppState -> Prop :=
  | reachable_start (storage : gmap string json) :
      reachable (hydrate storage)
  | reachable_step (a : Action) (state : AppState) :
      reachable state -> reachable (dispatch a state).

(** The current value of a field, [state.simulation[field]]. *)
Definition getField (field : SimulationField) (sim : SimulationData) : value :=
  match field with
  | F_ebitda => VNum (ebitda sim)
  | F_interestRate => VNum (interestRate sim)
  | F_multiple => VNum (multiple sim)
  | F_factorScore => VNum (factorScore sim)
  | F_companyName => companyName sim
  | F_description => description sim
  end.

(** The fields [SimulationData] declares as [number]. *)
Definition numericField (field : SimulationField) : bool :=
  match field with
  | F_ebitda | F_interestRate | F_multiple | F_factorScore => true
  | F_companyName | F_description => false
  end.

(** ** Predicates the properties are stated with *)

(** The four numeric inputs are truthy: neither [NaN] nor a zero. *)
Definition numbersTruthy (sim : SimulationData) : Prop :=
  JS.truthy (ebitda sim) = true /\ JS.truthy (interestRate sim) = true /\
  JS.truthy (multiple sim) = true /\ JS.truthy (factorScore sim) = true.

(** The timer counts up from 0 and its breakdown is that of its total. *)
Definition timerConsistent (t : TimerData) : Prop :=
  0 <= totalSeconds t /\
  hours t * 3600 + minutes t * 60 + seconds t = totalSeconds t /\
  0 <= hours t /\ 0 <= minutes t < 60 /\ 0 <= seconds t < 60.

(** The review statuses are keyed by the field names and nothing else. *)
Definition statusKeysExact (fs : gmap string FieldToggleStatus) : Prop :=
  dom fs = list_to_set simulationKeys.

Record invariant (state : AppState) : Prop := mkInvariant {
  inv_valuation : valuation state = calculateValuation (simulation state);
  inv_numbers : numbersTruthy (simulation state);
  inv_timer : timerConsistent (timer state);
  inv_status : statusKeysExact (fieldStatus state)
}.

(** The property names of a JSON object. *)
Definition jsonKeys (j : json) : list string :=
  match j with
  | JObj fields => map fst fields
  | _ => []
  end.

(** The sign of a number, none for [NaN]. *)
Definition sf_sign (x : spec_float) : option bool :=
  match x with
  | S754_nan => None
  | S754_zero s | S754_infinity s | S754_finite s _ _ => Some s
  end.

Fixpoint digitsOnly (s : string) : bool :=
  match s with
  | EmptyString => true
  | String c r => JS.isDigit c && digitsOnly r
  end.

(** A non-empty run of decimal digits. *)
Definition numeral (s : string) : bool :=
  match s with
  | EmptyString => false
  | String _ _ => digitsOnly s
  end.

(** [toFixed] on a zero or on a positive finite number below 10^21. *)
Definition belowCutoff (x : spec_float) : Prop :=
  match x with
  | S754_zero _ => True
  | S754_finite s m e =>
      s = false /\ (10 ^ 21 * JS.exact_den e <=? JS.exact_num m e) = false
  | _ => False
  end.

(** ** [hooks/useTimer.ts] *)

(** The text the hook returns as [formattedTime]. *)
Definition formattedTime (state : AppState) : string :=
  formatTime (totalSeconds (timer state)).

(** The interval's callback, [incrementTimer()], run [n] times. *)
Definition intervalTicks (n : nat) (state : AppState) : AppState :=
  Nat.iter n incrementTimer state.

(** ** [pages/Team1Page.tsx], [pages/Team2Page.tsx]: the effect run on mount *)

Definition Team1Page_mount (state : AppState) : AppState :=
  setUserRole team1 state.

Definition Team2Page_mount (state : AppState) : AppState :=
  setUserRole team2 state.

(** ** [components/forms/InputField.tsx]: what a field's row shows *)

(** [fieldStatus[field]], [None] for [undefined]. *)
Definition statusOf (field : SimulationField) (state : AppState)
    : option FieldToggleStatus :=
  fieldStatus state !! fieldKey field.

(** [active={status === 'TBD'}] and [active={status === 'OK'}]. *)
Definition tbdActive (field : SimulationField) (state : AppState) : bool :=
  match statusOf field state with Some TBD => true | _ => false end.

Definition okActive (field : SimulationField) (state : AppState) : bool :=
  match statusOf field state with Some OK => true | _ => false end.

(** [disabled={!isTeam1}] on the input, [disabled={!isTeam2}] on the two
    buttons. *)
Definition inputDisabled (state : AppState) : bool := negb (isTeam1 state).
Definition toggleDisabled (state : AppState) : bool := negb (isTeam2 state).

(** The actions that write the simulation inputs, the review statuses or the
    timer, the fields [resetSimulation] overwrites. *)
Definition writesSession (a : Action) : bool :=
  match a with
  | UpdateSimulationField _ _ | UpdateFieldStatus _ _ | IncrementTimer
  | ResetTimer | ResetSimulation => true
  | _ => false
  end.

(** The actions that set the timer back to zero. *)
Definition resetsTimer (a : Action) : bool :=
  match a with
  | ResetTimer | ResetSimulation => true
  | _ => false
  end.

(** The actions that write a persisted field. *)
Definition writesPersisted (a : Action) : bool :=
  match a with
  | ToggleFirstTimeGuidance | SetUserRole _ | SetUserName _ => true
  | _ => false
  end.

(** The decimal digit [d] as a character, and a number below 100 written with
    two digits. *)
Definition digitChar (d : Z) : ascii := ascii_of_N (Z.to_N (48 + d)).

Definition twoDigits (v : Z) : string :=
  String (digitChar (v / 10)) (String (digitChar (v mod 10)) EmptyString).

(** Text in which [parseFloat] finds no numeral at its first character: after
    the leading white space it is empty, or starts with a character that is
    neither a digit, a sign, a point nor the [I] of [Infinity]. *)
Definition startsNoNumeral (s : string) : bool :=
  match JS.trimStart s with
  | EmptyString => true
  | String c _ =>
      negb (JS.isDigit c || Ascii.eqb c "+" || Ascii.eqb c "-"
            || Ascii.eqb c "." || Ascii.eqb c "I")
  end.

(** ** [components/charts/ValuationChart.tsx] *)

(** The percentage the chart draws, clamped once more, and the text at its
    centre.  The dash array, the text of [percentage * 2.83], is left out. *)
Definition ValuationChart_percentage (v : ValuationData) : float :=
  JS.Math_min (percentage v) 100.

Definition ValuationChart_label (v : ValuationData) : string :=
  JS.toFixed (ValuationChart_percentage v) 0 +:+ "%".

(** ** Predicates of the further properties *)

(** The magnitude [m * 2^e] is at least the integer [C]. *)
Definition atLeast (C m e : Z) : Prop :=
  C * 2 ^ Z.max 0 (- e) <= m * 2 ^ Z.max 0 e.

(** [n] is the integer nearest to [x * 10^f], the larger one at a tie, for a
    zero or a positive finite [x]: [n <= x * 10^f + 1/2 < n + 1]. *)
Definition nearestScaled (x : float) (f : nat) (n : Z) : Prop :=
  match Prim2SF x with
  | S754_zero _ => n = 0
  | S754_finite false m e =>
      2 * JS.exact_den e * n
      <= 2 * JS.exact_num m e * 10 ^ Z.of_nat f + JS.exact_den e
      < 2 * JS.exact_den e * (n + 1)
  | _ => False
  end.

(** ** Properties *)

(** *** The model on the inputs of the specification's examples *)

Example parseFloat_decimal : JS.parseFloat "12.5" = 12.5%float.
Proof. vm_compute. reflexivity. Qed.

Example parseFloat_prefix : JS.parseFloat "  42px" = 42%float.
Proof. vm_compute. reflexivity. Qed.

Example parseFloat_exponent : JS.parseFloat "-2.5e3" = (-2500)%float.
Proof. vm_compute. reflexivity. Qed.

Example parseFloat_overflow : JS.parseFloat "1e999" = infinity.
Proof. vm_compute. reflexivity. Qed.

Example parseFloat_empty : JS.parseFloat EmptyString = nan.
Proof. vm_compute. reflexivity. Qed.

Example toFixed_half_up : JS.toFixed 2.5 0 = "3".
Proof. vm_compute. reflexivity. Qed.

Example toFixed_one_decimal : JS.toFixed 0.5 1 = "0.5".
Proof. vm_compute. reflexivity. Qed.

Example toFixed_large : JS.toFixed 1e21 1 = "1e+21".
Proof. vm_compute. reflexivity. Qed.

Example Math_min_nan : JS.Math_min nan 100 = nan.
Proof. vm_compute. reflexivity. Qed.

(** ebitda 10, multiple 10, factor score 3: amount 300, shown as $300. *)
Example valuation_initial :
  amount (calculateValuation initialSimulationData) = 300%float /\
  formatCurrency (amount (calculateValuation initialSimulationData)) = "$300".
Proof. split; vm_compute; reflexivity. Qed.

(** ebitda 1e6, multiple 500, factor score 5: amount 2.5e9, percentage
    clamped to 100. *)
Example valuation_clamped :
  calculateValuation
    {| ebitda := 1000000; interestRate := 20; multiple := 500;
       factorScore := 5; companyName := VStr "ABC Corp.";
       description := VStr "A company" |}
  = {| amount := 2500000000; percentage := 100; maxValuation := 1000000000 |}.
Proof. vm_compute. reflexivity. Qed.

Example formatTime_examples :
  formatTime 0 = "00:00:00" /\ formatTime 3661 = "01:01:01" /\
  formatTime 360000 = "100:00:00".
Proof. repeat split; vm_compute; reflexivity. Qed.

(** A number written to a text field makes the field numeric from then on. *)
Example text_field_turned_numeric :
  let state := updateSimulationField F_companyName (VNum 5) initialState in
  companyName (simulation state) = VNum 5 /\
  companyName (simulation (updateSimulationField F_companyName (VStr "Acme")
                             state)) = VNum 5.
Proof. split; vm_compute; reflexivity. Qed.

(** *** Truthiness and the fallback chain *)

Lemma logicalOr_truthy_l (x y : float) : JS.truthy x = true -> JS.logicalOr x y = x.
Proof. unfold JS.logicalOr. now intros ->. Qed.

Lemma logicalOr_falsy_l (x y : float) : JS.truthy x = false -> JS.logicalOr x y = y.
Proof. unfold JS.logicalOr. now intros ->. Qed.

Lemma truthy_not_nan (x : float) : JS.truthy x = true -> is_nan x = false.
Proof. unfold JS.truthy. destruct (is_nan x); [discriminate | reflexivity]. Qed.

Lemma truthy_not_zero (x : float) : JS.truthy x = true -> is_zero x = false.
Proof.
  unfold JS.truthy. destruct (is_nan x), (is_zero x); simpl; congruence.
Qed.

Lemma nan_falsy (x : float) : is_nan x = true -> JS.truthy x = false.
Proof. unfold JS.truthy. now intros ->. Qed.

Lemma zero_falsy (x : float) : is_zero x = true -> JS.truthy x = false.
Proof. unfold JS.truthy. intros ->. now rewrite orb_true_r. Qed.

(** A falsy parse falls back to the previous value, and to 0 when that is
    falsy too. *)
Lemma processNumeric_falsy (v : value) (previous : float) :
  JS.truthy (parseFloatString v) = false ->
  processNumeric v previous = JS.logicalOr previous 0%float.
Proof. intros H. unfold processNumeric. now rewrite (logicalOr_falsy_l _ _ H). Qed.

Lemma processNumeric_truthy (v : value) (previous : float) :
  JS.truthy (parseFloatString v) = true ->
  processNumeric v previous = parseFloatString v.
Proof.
  intros H. unfold processNumeric.
  rewrite (logicalOr_truthy_l _ previous H). now apply logicalOr_truthy_l.
Qed.

Lemma processNumeric_keeps_truthy (v : value) (previous : float) :
  JS.truthy previous = true -> JS.truthy (processNumeric v previous) = true.
Proof.
  intros Hp. destruct (JS.truthy (parseFloatString v)) eqn:Hv.
  - now rewrite processNumeric_truthy.
  - rewrite processNumeric_falsy by assumption. now rewrite logicalOr_truthy_l.
Qed.

(** The numeric fields of a field-wise update. *)
Lemma getField_newSimulation_numeric (f : SimulationField) (v : value)
    (sim : SimulationData) (x : float) :
  numericField f = true ->
  getField f sim = VNum x ->
  getField f (newSimulation f v sim) = VNum (processNumeric v x).
Proof. destruct f; simpl; intros Hn Hx; congruence. Qed.

Lemma getField_numeric (f : SimulationField) (sim : SimulationData) :
  numericField f = true -> exists x, getField f sim = VNum x.
Proof. destruct f; simpl; intros H; try discriminate; eauto. Qed.

(** *** Invariants of the reachable states *)

Lemma numbersTruthy_initial : numbersTruthy initialSimulationData.
Proof. repeat split; vm_compute; reflexivity. Qed.

Lemma numbersTruthy_newSimulation (f : SimulationField) (v : value)
    (sim : SimulationData) :
  numbersTruthy sim -> numbersTruthy (newSimulation f v sim).
Proof.
  intros (He & Hi & Hm & Hf).
  destruct f; simpl; repeat split; simpl;
    auto using processNumeric_keeps_truthy.
Qed.

Lemma timerConsistent_initial : timerConsistent initialTimer.
Proof. unfold timerConsistent; simpl; lia. Qed.

Lemma breakdown_consistent (n : Z) :
  0 <= n ->
  timerConsistent {| hours := n / 3600; minutes := Z.rem n 3600 / 60;
                     seconds := Z.rem n 60; totalSeconds := n |}.
Proof.
  intros Hn. unfold timerConsistent; simpl.
  rewrite !Z.rem_mod_nonneg by lia.
  pose proof (Z.div_mod n 3600 ltac:(lia)) as H1.
  pose proof (Z.mod_pos_bound n 3600 ltac:(lia)) as B1.
  pose proof (Z.div_mod (n mod 3600) 60 ltac:(lia)) as H2.
  pose proof (Z.mod_pos_bound (n mod 3600) 60 ltac:(lia)) as B2.
  pose proof (Z.mod_pos_bound n 60 ltac:(lia)) as B3.
  assert (Hmm : (n mod 3600) mod 60 = n mod 60).
  { symmetry. rewrite (Z.div_mod n 3600) at 1 by lia.
    replace (3600 * (n / 3600) + n mod 3600)
      with (n mod 3600 + (60 * (n / 3600)) * 60) by lia.
    apply Z.mod_add; lia. }
  pose proof (Z.div_pos n 3600 Hn ltac:(lia)) as P1.
  assert (P2 : 0 <= n mod 3600 / 60) by (apply Z.div_pos; lia).
  assert (P3 : n mod 3600 / 60 < 60) by (apply Z.div_lt_upper_bound; lia).
  repeat split; try lia.
Qed.

Lemma statusKeysExact_initial : statusKeysExact initialFieldStatus.
Proof.
  unfold statusKeysExact, initialFieldStatus, simulationKeys. simpl.
  rewrite !dom_insert_L, dom_empty_L. set_solver.
Qed.

Lemma fieldKey_in_keys (f : SimulationField) : fieldKey f ∈ simulationKeys.
Proof. destruct f; unfold simulationKeys; simpl; set_solver. Qed.

Lemma statusKeysExact_insert (f : SimulationField) (s : FieldToggleStatus)
    (fs : gmap string FieldToggleStatus) :
  statusKeysExact fs -> statusKeysExact (<[fieldKey f := s]> fs).
Proof.
  unfold statusKeysExact. intros Hdom. rewrite dom_insert_L, Hdom.
  assert (Hkey : fieldKey f ∈ (list_to_set simulationKeys : gset string))
    by (apply elem_of_list_to_set, fieldKey_in_keys).
  revert Hkey. generalize (list_to_set simulationKeys : gset string).
  intros keys Hkey. apply set_eq. intros k.
  rewrite elem_of_union, elem_of_singleton. split; [|tauto].
  intros [-> | Hk]; assumption.
Qed.

Lemma invariant_initial : invariant initialState.
Proof.
  split; simpl.
  - reflexivity.
  - apply numbersTruthy_initial.
  - apply timerConsistent_initial.
  - apply statusKeysExact_initial.
Qed.

Lemma invariant_hydrate (storage : gmap string json) :
  invariant (hydrate storage).
Proof.
  unfold hydrate. destruct (load storage) as [p|].
  - destruct invariant_initial. split; simpl; assumption.
  - apply invariant_initial.
Qed.

Lemma invariant_dispatch (a : Action) (state : AppState) :
  invariant state -> invariant (dispatch a state).
Proof.
  intros [Hv Hn Ht Hs].
  destruct a; simpl; split; simpl; try assumption.
  - reflexivity.
  - now apply numbersTruthy_newSimulation.
  - now apply statusKeysExact_insert.
  - apply breakdown_consistent. destruct Ht. lia.
  - apply timerConsistent_initial.
  - reflexivity.
  - apply numbersTruthy_initial.
  - apply timerConsistent_initial.
  - apply statusKeysExact_initial.
Qed.

Lemma reachable_invariant (state : AppState) :
  reachable state -> invariant state.
Proof.
  induction 1 as [storage | a state _ IH].
  - apply invariant_hydrate.
  - now apply invariant_dispatch.
Qed.

(** *** The valuation follows the inputs *)

(** C2. In every state the store can be in, and so after every action
    (updateSimulationField, updateFieldStatus, incrementTimer, resetTimer,
    the guidance and modal toggles, setUserRole, setUserName,
    resetSimulation), the stored valuation is [calculateValuation] of the
    stored simulation inputs. *)
Theorem valuation_in_sync (state : AppState) :
  reachable state ->
  valuation state = calculateValuation (simulation state) /\
  forall a : Action,
    valuation (dispatch a state)
    = calculateValuation (simulation (dispatch a state)).
Proof.
  intros Hr. split.
  - apply (reachable_invariant _ Hr).
  - intros a. apply (reachable_invariant _ (reachable_step a _ Hr)).
Qed.

Lemma valuation_in_sync_witness :
  let state := dispatch (UpdateSimulationField F_multiple (VStr "12.5"))
                        (hydrate ∅) in
  reachable state /\
  valuation state = calculateValuation (simulation state) /\
  forall a : Action,
    valuation (dispatch a state)
    = calculateValuation (simulation (dispatch a state)).
Proof.
  intros state.
  assert (Hr : reachable state) by (apply reachable_step, reachable_start).
  split; [exact Hr | exact (valuation_in_sync state Hr)].
Defined.

(** *** Role gating *)

(** C4, as the specification states it, fails on the store's own actions,
    which consult no role: with the role team1,
    [updateFieldStatus("description", "OK")] turns description's status from
    TBD to OK, and with the role team2,
    [updateSimulationField("ebitda", "50")] turns ebitda from 10 to 50 and the
    valuation from 300 to 1500. *)
Lemma store_actions_ungated :
  role (user initialState) = team1 /\
  fieldStatus initialState !! "description" = Some TBD /\
  fieldStatus (updateFieldStatus F_description OK initialState)
    !! "description" = Some OK /\
  role (user (setUserRole team2 initialState)) = team2 /\
  ebitda (simulation (setUserRole team2 initialState)) = 10%float /\
  amount (valuation (setUserRole team2 initialState)) = 300%float /\
  ebitda (simulation (updateSimulationField F_ebitda (VStr "50")
                        (setUserRole team2 initialState))) = 50%float /\
  amount (valuation (updateSimulationField F_ebitda (VStr "50")
                       (setUserRole team2 initialState))) = 1500%float.
Proof. repeat split; vm_compute; reflexivity. Qed.

(** C4 (amended). The role is consulted by the handlers of the input form,
    through which the two store actions are called: [handleValueChange] for
    an input and [handleStatusToggle] for a review status.  While the role is
    team2 a value change is a silent no-op: it leaves the whole state, hence
    the simulation inputs and the valuation, as it was.  While the role is
    team1 a status toggle is a silent no-op: it leaves the whole state, hence
    the review statuses, as it was.  With the permitted role each handler is
    the store's action. *)
Theorem role_gate_noop (state : AppState) :
  (role (user state) = team2 ->
   forall (field : SimulationField) (v : value),
     handleValueChange field v state = state /\
     simulation (handleValueChange field v state) = simulation state /\
     valuation (handleValueChange field v state) = valuation state) /\
  (role (user state) = team1 ->
   forall (field : SimulationField) (status : FieldToggleStatus),
     handleStatusToggle field status state = state /\
     fieldStatus (handleStatusToggle field status state) = fieldStatus state) /\
  (role (user state) = team1 ->
   forall (field : SimulationField) (v : value),
     handleValueChange field v state = updateSimulationField field v state) /\
  (role (user state) = team2 ->
   forall (field : SimulationField) (status : FieldToggleStatus),
     handleStatusToggle field status state
     = updateFieldStatus field status state).
Proof.
  unfold handleValueChange, handleStatusToggle, isTeam1, isTeam2.
  split; [|split; [|split]]; intros Hrole field x; rewrite Hrole; simpl; auto.
Qed.

Lemma role_gate_noop_witness :
  role (user (setUserRole team2 initialState)) = team2 /\
  handleValueChange F_ebitda (VStr "99") (setUserRole team2 initialState)
  = setUserRole team2 initialState /\
  role (user initialState) = team1 /\
  handleStatusToggle F_description OK initialState = initialState.
Proof.
  split; [reflexivity|]. split.
  - apply (proj1 (role_gate_noop (setUserRole team2 initialState))
             eq_refl F_ebitda (VStr "99")).
  - split; [reflexivity|].
    apply (proj1 (proj2 (role_gate_noop initialState))
             eq_refl F_description OK).
Defined.

(** *** Reset *)

(** C5. From any state, resetSimulation puts the simulation inputs, the
    review statuses and the timer back to their initial values (ebitda 10,
    interest rate 20, multiple 10, factor score 3, the initial texts; every
    status OK but description's, TBD, and no status under any other key; a
    zero timer) and recomputes the valuation (amount 300), and leaves the
    user (name, role) and the three visibility flags untouched. *)
Theorem resetSimulation_restores_defaults (state : AppState) :
  let state' := resetSimulation state in
  simulation state' = initialSimulationData /\
  ebitda (simulation state') = 10%float /\
  interestRate (simulation state') = 20%float /\
  multiple (simulation state') = 10%float /\
  factorScore (simulation state') = 3%float /\
  companyName (simulation state') = VStr "ABC Corp." /\
  description (simulation state')
  = VStr "This is the company's description. This company is #1!" /\
  fieldStatus state' = initialFieldStatus /\
  timer state'
  = {| hours := 0; minutes := 0; seconds := 0; totalSeconds := 0 |} /\
  valuation state' = calculateValuation (simulation state') /\
  user state' = user state /\
  isFirstTimeGuidanceOpen state' = isFirstTimeGuidanceOpen state /\
  isVideoModalOpen state' = isVideoModalOpen state /\
  isTextModalOpen state' = isTextModalOpen state /\
  (forall f : SimulationField,
     fieldStatus state' !! fieldKey f
     = Some (match f with F_description => TBD | _ => OK end)) /\
  fieldStatus state' !! "ebitda" = Some OK /\
  fieldStatus state' !! "interestRate" = Some OK /\
  fieldStatus state' !! "multiple" = Some OK /\
  fieldStatus state' !! "factorScore" = Some OK /\
  fieldStatus state' !! "companyName" = Some OK /\
  fieldStatus state' !! "description" = Some TBD /\
  (forall k : string,
     k <> "ebitda" -> k <> "interestRate" -> k <> "multiple" ->
     k <> "factorScore" -> k <> "companyName" -> k <> "description" ->
     fieldStatus state' !! k = None) /\
  valuation state'
  = {| amount := 300; percentage := (300 / 1000000000 * 100)%float;
       maxValuation := 1000000000 |}.
Proof.
  cbn [resetSimulation setFlags simulation fieldStatus timer valuation user
       isFirstTimeGuidanceOpen isVideoModalOpen isTextModalOpen].
  do 14 (split; [reflexivity|]).
  split; [intros f; destruct f; vm_compute; reflexivity|].
  do 6 (split; [vm_compute; reflexivity|]).
  split; [|vm_compute; reflexivity].
  intros k H1 H2 H3 H4 H5 H6.
  unfold initialFieldStatus, simulationKeys. cbn [foldl].
  rewrite !lookup_insert_ne by (intros Hk; subst k; congruence).
  apply lookup_empty.
Qed.

(** *** Persistence *)

Lemma roleOfText_roleText (r : Role) : roleOfText (roleText r) = Some r.
Proof. now destruct r. Qed.

Lemma userOfJson_userToJson (u : UserData) : userOfJson (userToJson u) = Some u.
Proof.
  destruct u as [n r]. unfold userOfJson, userToJson. simpl.
  now rewrite roleOfText_roleText.
Qed.

Lemma persistedOfJson_persistedToJson (p : PersistedState) :
  persistedOfJson (persistedToJson p) = Some p.
Proof.
  destruct p as [b u]. unfold persistedOfJson, persistedToJson.
  cbn [jsonField jsonLookup String.eqb Ascii.eqb Bool.eqb persistedGuidance
       persistedUser].
  now rewrite userOfJson_userToJson.
Qed.

Lemma load_save (p : PersistedState) (storage : gmap string json) :
  load (save p storage) = Some p.
Proof.
  unfold load, save. rewrite lookup_insert_eq.
  cbn [jsonField jsonLookup String.eqb Ascii.eqb Bool.eqb].
  apply persistedOfJson_persistedToJson.
Qed.

(** C6. What is persisted is the guidance flag and the user, and nothing
    else: the stored record has exactly the keys isFirstTimeGuidanceOpen and
    user, two states that agree on these two fields are stored alike, only
    the store's one key is written, and loading merges nothing but these two
    fields into the state.  Saving a subset and loading it back gives the
    same subset. *)
Theorem persisted_subset_roundtrip :
  (forall state : AppState,
     jsonKeys (persistedToJson (partialize state))
     = ["isFirstTimeGuidanceOpen"; "user"] /\
     persistedGuidance (partialize state) = isFirstTimeGuidanceOpen state /\
     persistedUser (partialize state) = user state) /\
  (forall (s1 s2 : AppState) (storage : gmap string json),
     isFirstTimeGuidanceOpen s1 = isFirstTimeGuidanceOpen s2 ->
     user s1 = user s2 ->
     save (partialize s1) storage = save (partialize s2) storage) /\
  (forall (p : PersistedState) (storage : gmap string json) (k : string),
     k <> storageName -> save p storage !! k = storage !! k) /\
  (forall (p : PersistedState) (state : AppState),
     simulation (merge p state) = simulation state /\
     fieldStatus (merge p state) = fieldStatus state /\
     valuation (merge p state) = valuation state /\
     timer (merge p state) = timer state /\
     isVideoModalOpen (merge p state) = isVideoModalOpen state /\
     isTextModalOpen (merge p state) = isTextModalOpen state /\
     partialize (merge p state) = p) /\
  (forall (p : PersistedState) (storage : gmap string json),
     load (save p storage) = Some p).
Proof.
  repeat split.
  - intros s1 s2 storage Hg Hu. unfold partialize. now rewrite Hg, Hu.
  - intros p storage k Hk. unfold save. now rewrite lookup_insert_ne.
  - now destruct p.
  - apply load_save.
Qed.

Lemma persisted_subset_roundtrip_witness :
  let s1 := setUserName "Ann Lee" (setUserRole team2 initialState) in
  let s2 := incrementTimer (openVideoModal s1) in
  save (partialize s1) ∅ = save (partialize s2) ∅ /\
  load (save (partialize s1) ∅) = Some (partialize s1).
Proof.
  intros s1 s2. split.
  - apply (proj1 (proj2 persisted_subset_roundtrip) s1 s2 ∅); reflexivity.
  - apply (proj2 (proj2 (proj2 (proj2 persisted_subset_roundtrip)))).
Defined.

(** *** The timer *)

Lemma timer_incrementTimer (state : AppState) :
  timer (incrementTimer state)
  = let n := totalSeconds (timer state) + 1 in
    {| hours := n / 3600; minutes := Z.rem n 3600 / 60;
       seconds := Z.rem n 60; totalSeconds := n |}.
Proof. reflexivity. Qed.

Lemma totalSeconds_iter (n : nat) (state : AppState) :
  totalSeconds (timer (Nat.iter n incrementTimer state))
  = totalSeconds (timer state) + Z.of_nat n.
Proof.
  induction n as [|n IH].
  - simpl. lia.
  - rewrite Nat.iter_succ, timer_incrementTimer. cbn [totalSeconds].
    rewrite IH. lia.
Qed.

(** C7. In every state the store can be in, incrementTimer advances
    totalSeconds by exactly 1 and stores the breakdown of the new total:
    hours*3600 + minutes*60 + seconds = totalSeconds, with hours, minutes and
    seconds non-negative (minutes and seconds below 60), and touches nothing
    but the timer.  3600 calls from a zero timer give 1 h 0 min 0 s,
    totalSeconds 3600, which formatTime renders as 01:00:00. *)
Theorem incrementTimer_advances (state : AppState) :
  reachable state ->
  let t := timer (incrementTimer state) in
  totalSeconds t = totalSeconds (timer state) + 1 /\
  hours t * 3600 + minutes t * 60 + seconds t = totalSeconds t /\
  0 <= hours t /\ 0 <= minutes t < 60 /\ 0 <= seconds t < 60 /\
  0 <= totalSeconds t /\
  incrementTimer state = setTimer t state /\
  (totalSeconds (timer state) = 0 ->
   timer (Nat.iter 3600 incrementTimer state)
   = {| hours := 1; minutes := 0; seconds := 0; totalSeconds := 3600 |} /\
   formatTime (totalSeconds (timer (Nat.iter 3600 incrementTimer state)))
   = "01:00:00").
Proof.
  intros Hr t.
  destruct (inv_timer _ (reachable_invariant _ Hr)) as (H0 & _).
  assert (Hc : timerConsistent t).
  { subst t. rewrite timer_incrementTimer. apply breakdown_consistent. lia. }
  destruct Hc as (Ht0 & Hsum & Hh & Hm & Hs).
  repeat (split; [first [assumption | reflexivity | lia]|]).
  intros Hzero. split.
  - change (3600%nat) with (S 3599). rewrite Nat.iter_succ.
    rewrite timer_incrementTimer, totalSeconds_iter, Hzero. reflexivity.
  - rewrite totalSeconds_iter, Hzero. vm_compute. reflexivity.
Qed.

Lemma incrementTimer_advances_witness :
  reachable initialState /\
  totalSeconds (timer (incrementTimer initialState)) = 1 /\
  timer (Nat.iter 3600 incrementTimer initialState)
  = {| hours := 1; minutes := 0; seconds := 0; totalSeconds := 3600 |} /\
  formatTime (totalSeconds (timer (Nat.iter 3600 incrementTimer initialState)))
  = "01:00:00".
Proof.
  assert (Hr : reachable initialState) by exact (reachable_start ∅).
  pose proof (incrementTimer_advances initialState Hr) as H.
  cbv zeta in H. destruct H as (H1 & _ & _ & _ & _ & _ & _ & H8).
  split; [exact Hr|]. split; [exact H1|]. exact (H8 eq_refl).
Defined.

(** *** The review statuses *)

(** The field names are the keys of the simulation inputs. *)
Lemma simulationKeys_fieldKey (k : string) :
  k ∈ simulationKeys <-> exists f : SimulationField, fieldKey f = k.
Proof.
  split.
  - unfold simulationKeys. rewrite !elem_of_cons, elem_of_nil.
    intros [->|[->|[->|[->|[->|[->|[]]]]]]];
      [exists F_ebitda | exists F_interestRate | exists F_multiple
      | exists F_factorScore | exists F_companyName | exists F_description];
      reflexivity.
  - intros [f <-]. apply fieldKey_in_keys.
Qed.

(** C8. In every state the store can be in (so after every action) the review
    statuses give each simulation field name, and no other key, one status,
    TBD or OK; initially every field is OK except description, which is
    TBD. *)
Theorem fieldStatus_keys_invariant (state : AppState) :
  reachable state ->
  (forall k : string,
     (exists f : SimulationField, fieldKey f = k) <->
     (exists s : FieldToggleStatus, fieldStatus state !! k = Some s)) /\
  (forall f : SimulationField,
     fieldStatus state !! fieldKey f = Some TBD \/
     fieldStatus state !! fieldKey f = Some OK) /\
  (forall a : Action,
     dom (fieldStatus (dispatch a state)) = list_to_set simulationKeys) /\
  (forall f : SimulationField,
     initialFieldStatus !! fieldKey f
     = Some (match f with F_description => TBD | _ => OK end)) /\
  fieldStatus (hydrate ∅) = initialFieldStatus.
Proof.
  intros Hr.
  pose proof (inv_status _ (reachable_invariant _ Hr)) as Hd.
  unfold statusKeysExact in Hd.
  assert (Hk : forall k, (exists f, fieldKey f = k) <->
                         is_Some (fieldStatus state !! k)).
  { intros k. rewrite <- simulationKeys_fieldKey, <- elem_of_dom, Hd.
    now rewrite elem_of_list_to_set. }
  repeat split.
  - intros Hf. apply Hk in Hf. destruct Hf as [s Hs]. eauto.
  - intros [s Hs]. apply Hk. eauto.
  - intros f. destruct (proj1 (Hk (fieldKey f)) (ex_intro _ f eq_refl))
      as [[|] Hs]; auto.
  - intros a.
    apply (inv_status _ (reachable_invariant _ (reachable_step a _ Hr))).
  - intros f. destruct f; vm_compute; reflexivity.
Qed.

Lemma fieldStatus_keys_invariant_witness :
  let state := dispatch (UpdateFieldStatus F_description OK)
                 (dispatch (SetUserRole team2) (hydrate ∅)) in
  reachable state /\
  (forall f : SimulationField,
     fieldStatus state !! fieldKey f = Some TBD \/
     fieldStatus state !! fieldKey f = Some OK).
Proof.
  intros state.
  assert (Hr : reachable state) by (do 2 apply reachable_step; apply reachable_start).
  split; [exact Hr|].
  exact (proj1 (proj2 (fieldStatus_keys_invariant state Hr))).
Defined.

(** *** Invalid and zero numeric input *)

Lemma reachable_numeric_truthy (state : AppState) (f : SimulationField)
    (x : float) :
  reachable state ->
  numericField f = true ->
  getField f (simulation state) = VNum x ->
  JS.truthy x = true.
Proof.
  intros Hr Hn Hx.
  destruct (inv_numbers _ (reachable_invariant _ Hr)) as (He & Hi & Hm & Hf).
  destruct f; simpl in Hx, Hn; try discriminate; congruence.
Qed.

(** A raw value whose parse is falsy ([NaN] or a zero) leaves a numeric field
    of a reachable state as it was. *)
Lemma falsy_parse_keeps_field (state : AppState) (f : SimulationField)
    (v : value) :
  reachable state ->
  numericField f = true ->
  JS.truthy (parseFloatString v) = false ->
  getField f (simulation (updateSimulationField f v state))
  = getField f (simulation state).
Proof.
  intros Hr Hn Hv.
  destruct (getField_numeric f (simulation state) Hn) as [x Hx].
  cbn [updateSimulationField simulation].
  rewrite (getField_newSimulation_numeric f v _ x Hn Hx), Hx.
  rewrite (processNumeric_falsy _ _ Hv).
  now rewrite (logicalOr_truthy_l _ _ (reachable_numeric_truthy _ _ _ Hr Hn Hx)).
Qed.

Example parse_abc : is_nan (parseFloatString (VStr "abc")) = true.
Proof. vm_compute. reflexivity. Qed.

Example parse_Infinity : parseFloatString (VStr "Infinity") = infinity.
Proof. vm_compute. reflexivity. Qed.

(** C3, as the specification states it, fails on a raw value that parses to
    an infinity: the parse is not finite, yet it is truthy, so it is stored.
    With ebitda at 10, [updateSimulationField("ebitda", "Infinity")] leaves
    ebitda at [Infinity]. *)
Lemma infinite_input_is_stored :
  is_finite (parseFloatString (VStr "Infinity")) = false /\
  getField F_ebitda (simulation initialState) = VNum 10 /\
  getField F_ebitda
    (simulation (updateSimulationField F_ebitda (VStr "Infinity") initialState))
  = VNum infinity.
Proof. repeat split; vm_compute; reflexivity. Qed.

(** An infinity is truthy. *)
Lemma infinity_truthy (x : float) : is_infinity x = true -> JS.truthy x = true.
Proof.
  unfold is_infinity, JS.truthy, is_nan, is_zero.
  rewrite !FloatAxioms.eqb_spec, abs_spec.
  replace (Prim2SF infinity) with (S754_infinity false) by reflexivity.
  replace (Prim2SF PrimFloat.zero) with (S754_zero false) by reflexivity.
  unfold SFeqb. destruct (Prim2SF x) as [s|s| |s m e]; simpl;
    try discriminate; destruct s; simpl; try discriminate; reflexivity.
Qed.

(** C3 (amended). For every numeric field of a state the store can be in and
    every raw value whose parse fails, that is yields [NaN],
    updateSimulationField leaves the field at its previous value (the action
    is a total function and the field stays a number); so
    [updateSimulationField("ebitda", "abc")] with ebitda at 10 leaves it at
    10.  A parse that yields an infinity is truthy and is stored. *)
Theorem unparseable_input_keeps_previous (state : AppState)
    (f : SimulationField) (v : value) :
  reachable state ->
  numericField f = true ->
  (is_nan (parseFloatString v) = true ->
   getField f (simulation (updateSimulationField f v state))
   = getField f (simulation state) /\
   exists x : float,
     getField f (simulation (updateSimulationField f v state)) = VNum x /\
     is_nan x = false) /\
  (is_infinity (parseFloatString v) = true ->
   getField f (simulation (updateSimulationField f v state))
   = VNum (parseFloatString v)) /\
  is_nan (parseFloatString (VStr "abc")) = true.
Proof.
  intros Hr Hn.
  destruct (getField_numeric f (simulation state) Hn) as [x Hx].
  split; [|split; [|exact parse_abc]].
  - intros Hv.
    pose proof (falsy_parse_keeps_field state f v Hr Hn (nan_falsy _ Hv)) as Hk.
    split; [exact Hk|].
    exists x. rewrite Hk. split; [exact Hx|].
    apply truthy_not_nan, (reachable_numeric_truthy _ _ _ Hr Hn Hx).
  - intros Hv. cbn [updateSimulationField simulation].
    rewrite (getField_newSimulation_numeric f v _ x Hn Hx).
    now rewrite (processNumeric_truthy _ _ (infinity_truthy _ Hv)).
Qed.

Lemma unparseable_input_keeps_previous_witness :
  reachable initialState /\
  numericField F_ebitda = true /\
  is_nan (parseFloatString (VStr "abc")) = true /\
  getField F_ebitda (simulation initialState) = VNum 10 /\
  getField F_ebitda
    (simulation (updateSimulationField F_ebitda (VStr "abc") initialState))
  = getField F_ebitda (simulation initialState).
Proof.
  assert (Hr : reachable initialState) by exact (reachable_start ∅).
  split; [exact Hr|]. split; [reflexivity|]. split; [exact parse_abc|].
  split; [reflexivity|].
  exact (proj1 (proj1 (unparseable_input_keeps_previous initialState F_ebitda
                         (VStr "abc") Hr eq_refl) parse_abc)).
Defined.

Example parse_zero_text : is_zero (parseFloatString (VStr "0")) = true.
Proof. vm_compute. reflexivity. Qed.

Example parse_zero_number : is_zero (parseFloatString (VNum 0)) = true.
Proof. vm_compute. reflexivity. Qed.

(** C10. For every numeric field, updateSimulationField with a raw value
    that parses to 0 (the text "0" and the number 0 do) does not store the 0:
    the chain [parseFloat(...) || previous || 0] skips it, the result is
    [previous || 0], so the field keeps its previous value when that is
    truthy, as it is in every state the store can be in, and the field is 0
    afterwards only when the previous value was a zero (or [NaN], which no
    reachable state holds). *)
Theorem zero_input_keeps_previous (state : AppState) (f : SimulationField)
    (v : value) (previous : float) :
  numericField f = true ->
  getField f (simulation state) = VNum previous ->
  is_zero (parseFloatString v) = true ->
  let after := getField f (simulation (updateSimulationField f v state)) in
  after = VNum (JS.logicalOr previous 0%float) /\
  (JS.truthy previous = true -> after = VNum previous) /\
  (reachable state -> after = VNum previous /\ is_zero previous = false) /\
  (forall x : float,
     after = VNum x -> is_zero x = true -> is_nan previous = false ->
     is_zero previous = true) /\
  is_zero (parseFloatString (VStr "0")) = true /\
  is_zero (parseFloatString (VNum 0%float)) = true.
Proof.
  intros Hn Hx Hv after.
  assert (Ha : after = VNum (JS.logicalOr previous 0%float)).
  { subst after. cbn [updateSimulationField simulation].
    rewrite (getField_newSimulation_numeric f v _ previous Hn Hx).
    now rewrite (processNumeric_falsy _ _ (zero_falsy _ Hv)). }
  split; [exact Ha|]. split; [|split; [|split]].
  - intros Ht. now rewrite Ha, logicalOr_truthy_l.
  - intros Hr. pose proof (reachable_numeric_truthy _ _ _ Hr Hn Hx) as Ht.
    split; [now rewrite Ha, logicalOr_truthy_l | now apply truthy_not_zero].
  - intros x Hax Hz Hnan. rewrite Ha in Hax. injection Hax as <-.
    unfold JS.logicalOr, JS.truthy in Hz. rewrite Hnan in Hz.
    destruct (is_zero previous) eqn:Hp; [reflexivity|].
    simpl in Hz. congruence.
  - split; [exact parse_zero_text | exact parse_zero_number].
Qed.

Lemma zero_input_keeps_previous_witness :
  numericField F_multiple = true /\
  getField F_multiple (simulation initialState) = VNum 10 /\
  is_zero (parseFloatString (VStr "0")) = true /\
  getField F_multiple
    (simulation (updateSimulationField F_multiple (VStr "0") initialState))
  = VNum 10.
Proof.
  split; [reflexivity|]. split; [reflexivity|]. split; [exact parse_zero_text|].
  exact (proj1 (proj2 (zero_input_keeps_previous initialState F_multiple
                         (VStr "0") 10%float eq_refl eq_refl parse_zero_text))
               eq_refl).
Defined.

(** *** Facts about binary64 arithmetic, from its specification *)

Lemma is_nan_spec (x : float) :
  is_nan x = true <-> Prim2SF x = S754_nan.
Proof.
  unfold is_nan. rewrite FloatAxioms.eqb_spec. unfold SFeqb.
  destruct (Prim2SF x) as [s|s| |s m e]; simpl.
  - split; discriminate.
  - destruct s; split; discriminate.
  - split; reflexivity.
  - rewrite Z.compare_refl, Pos.compare_cont_refl.
    destruct s; split; discriminate.
Qed.

Lemma is_nan_false_sign (x : float) :
  is_nan x = false <-> exists s, sf_sign (Prim2SF x) = Some s.
Proof.
  pose proof (is_nan_spec x) as H.
  destruct (is_nan x); split.
  - discriminate.
  - intros [s Hs]. rewrite (proj1 H eq_refl) in Hs. discriminate.
  - intros _. destruct (Prim2SF x) as [s|s| |s m e]; simpl; eauto.
    destruct H as [_ H]. discriminate (H eq_refl).
  - reflexivity.
Qed.

Lemma SFcompare_antisym (x y : spec_float) :
  SFcompare y x = option_map CompOpp (SFcompare x y).
Proof.
  destruct x as [s1|s1| |s1 m1 e1], y as [s2|s2| |s2 m2 e2]; simpl;
    try reflexivity; try (destruct s1; reflexivity);
    try (destruct s2; reflexivity);
    try (destruct s1, s2; reflexivity).
  destruct s1, s2; try reflexivity; f_equal;
    rewrite (Z.compare_antisym e1 e2);
    destruct (e1 ?= e2) eqn:He; simpl; try reflexivity.
  - now rewrite (Pos.compare_cont_antisym m1 m2 Eq).
  - now rewrite (Pos.compare_cont_antisym m1 m2 Eq).
Qed.

(** [0 <= x] holds for the zeros and for the numbers of positive sign. *)
Lemma leb_zero_spec (x : float) :
  (0 <=? x)%float = true <->
  (exists s, Prim2SF x = S754_zero s) \/ sf_sign (Prim2SF x) = Some false.
Proof.
  rewrite leb_spec.
  replace (Prim2SF 0%float) with (S754_zero false) by reflexivity.
  unfold SFleb. destruct (Prim2SF x) as [s|s| |s m e]; simpl.
  - split; eauto.
  - destruct s; simpl; split; try discriminate; auto.
    intros [[s Hs]|Hs]; discriminate.
  - split; [discriminate | intros [[s Hs]|Hs]; discriminate].
  - destruct s; simpl; split; try discriminate; auto.
    intros [[s Hs]|Hs]; discriminate.
Qed.

(** Right shifts of a non-negative mantissa are divisions by powers of 2. *)
Lemma shr_1_m (mrs : shr_record) :
  0 <= shr_m mrs -> shr_m (shr_1 mrs) = shr_m mrs / 2.
Proof.
  destruct mrs as [m r s]. simpl. intros Hm.
  destruct m as [|p|p]; [reflexivity | | lia].
  destruct p as [p|p|]; simpl.
  - rewrite Pos2Z.inj_xI. apply Z.div_unique with 1; lia.
  - rewrite Pos2Z.inj_xO. apply Z.div_unique with 0; lia.
  - reflexivity.
Qed.

Lemma iter_shr_1_m (p : positive) (mrs : shr_record) :
  0 <= shr_m mrs ->
  shr_m (SpecFloat.iter_pos shr_1 p mrs) = shr_m mrs / 2 ^ Zpos p.
Proof.
  revert mrs.
  induction p as [p IH|p IH|]; intros mrs Hm; simpl SpecFloat.iter_pos.
  - assert (H1 : 0 <= shr_m (shr_1 mrs))
      by (rewrite shr_1_m by assumption; apply Z.div_pos; lia).
    assert (H2 : 0 <= shr_m (SpecFloat.iter_pos shr_1 p (shr_1 mrs)))
      by (rewrite IH by assumption; apply Z.div_pos; lia).
    rewrite IH, IH, shr_1_m by assumption.
    rewrite !Z.div_div by lia. f_equal.
    replace (Z.pos p~1) with (1 + Z.pos p + Z.pos p) by lia.
    rewrite !Z.pow_add_r by lia. change (2 ^ 1) with 2. lia.
  - assert (H2 : 0 <= shr_m (SpecFloat.iter_pos shr_1 p mrs))
      by (rewrite IH by assumption; apply Z.div_pos; lia).
    rewrite IH, IH by assumption.
    rewrite Z.div_div by lia. f_equal.
    replace (Z.pos p~0) with (Z.pos p + Z.pos p) by lia.
    rewrite Z.pow_add_r by lia. reflexivity.
  - rewrite shr_1_m by assumption. reflexivity.
Qed.

(** The number of binary digits bounds the mantissa. *)
Lemma digits2_pos_size (p : positive) : digits2_pos p = Pos.size p.
Proof. induction p; simpl; congruence. Qed.

Lemma Zdigits2_nonneg (m : Z) : 0 <= Zdigits2 m.
Proof. destruct m; simpl; lia. Qed.

Lemma Zdigits2_le_iff (m k : Z) :
  0 <= m -> 0 <= k -> (Zdigits2 m <= k <-> m < 2 ^ k).
Proof.
  intros Hm Hk. destruct m as [|p|p]; [| |lia].
  - simpl. split; intros _; [apply Z.pow_pos_nonneg|]; lia.
  - simpl Zdigits2. rewrite digits2_pos_size.
    pose proof (Pos.size_gt p) as Hgt. pose proof (Pos.size_le p) as Hle.
    split; intros H.
    + apply Z.lt_le_trans with (2 ^ Z.pos (Pos.size p)).
      * rewrite <- Pos2Z.inj_pow. apply Pos2Z.pos_lt_pos. exact Hgt.
      * apply Z.pow_le_mono_r; lia.
    + destruct (Z.le_gt_cases (Z.pos (Pos.size p)) k) as [|Hlt]; [assumption|].
      exfalso.
      assert (2 ^ Z.pos (Pos.size p) <= 2 * Z.pos p).
      { rewrite <- Pos2Z.inj_pow. change (2 * Z.pos p) with (Z.pos p~0).
        apply Pos2Z.pos_le_pos. exact Hle. }
      assert (2 * 2 ^ k <= 2 ^ Z.pos (Pos.size p)).
      { replace (2 * 2 ^ k) with (2 ^ (k + 1))
          by (rewrite Z.pow_add_r by lia; lia).
        apply Z.pow_le_mono_r; lia. }
      lia.
Qed.

Lemma Zdigits2_lt_pow (m : Z) : 0 <= m -> m < 2 ^ Zdigits2 m.
Proof.
  intros Hm. apply Zdigits2_le_iff; [assumption | apply Zdigits2_nonneg | lia].
Qed.

(** [shr] on a non-negative mantissa. *)
Lemma shr_spec (mrs : shr_record) (e n : Z) :
  0 <= shr_m mrs ->
  shr_m (fst (shr mrs e n)) = shr_m mrs / 2 ^ Z.max 0 n /\
  snd (shr mrs e n) = e + Z.max 0 n.
Proof.
  intros Hm. destruct n as [|p|p]; simpl.
  - rewrite Z.div_1_r. split; [reflexivity | lia].
  - rewrite iter_shr_1_m by assumption. split; reflexivity.
  - rewrite Z.div_1_r. split; [reflexivity | lia].
Qed.

Lemma shr_m_of_loc (m : Z) (l : location) : shr_m (shr_record_of_loc m l) = m.
Proof. destruct l as [|[]]; reflexivity. Qed.

Lemma fexp_le (e K : Z) : e <= K -> emin <= K -> fexp prec emax e <= K.
Proof. intros He Hk. unfold fexp, SpecFloat.emin, prec, emax in *. lia. Qed.

(** Shifting to the canonical exponent keeps the magnitude below [2^K]. *)
Lemma shr_fexp_bound (m e K : Z) (l : location) :
  0 <= m -> Zdigits2 m + e <= K -> emin <= K ->
  let r := shr_fexp prec emax m e l in
  0 <= shr_m (fst r) /\ Zdigits2 (shr_m (fst r)) + snd r <= K.
Proof.
  intros Hm HK Hemin r. subst r. unfold shr_fexp.
  set (n := fexp prec emax (Zdigits2 m + e) - e).
  destruct (shr_spec (shr_record_of_loc m l) e n) as [H1 H2].
  { now rewrite shr_m_of_loc. }
  rewrite shr_m_of_loc in H1. rewrite H1, H2.
  assert (Hn : e + Z.max 0 n <= K).
  { pose proof (fexp_le (Zdigits2 m + e) K HK Hemin).
    pose proof (Zdigits2_nonneg m). subst n. lia. }
  assert (Hp : 0 < 2 ^ Z.max 0 n) by (apply Z.pow_pos_nonneg; lia).
  split; [apply Z.div_pos; lia|].
  assert (Hq : 0 <= m / 2 ^ Z.max 0 n) by (apply Z.div_pos; lia).
  cut (Zdigits2 (m / 2 ^ Z.max 0 n) <= K - (e + Z.max 0 n)); [lia|].
  apply Zdigits2_le_iff; [assumption | lia |].
  apply Z.div_lt_upper_bound; [assumption|].
  rewrite <- Z.pow_add_r by lia.
  apply Z.lt_le_trans with (2 ^ Zdigits2 m); [now apply Zdigits2_lt_pow|].
  apply Z.pow_le_mono_r; lia.
Qed.

Lemma round_nearest_even_bounds (m : Z) (l : location) :
  m <= round_nearest_even m l <= m + 1.
Proof. destruct l as [|[]]; simpl; try lia. destruct (Z.even m); lia. Qed.

(** Rounding a non-negative mantissa gives a zero or a finite number of the
    given sign whose magnitude is below [2^(K+1)] when the mantissa's is
    below [2^K]; it never gives [NaN]. *)
Lemma binary_round_aux_bound (sx : bool) (mx ex : Z) (lx : location) (K : Z) :
  0 <= mx -> Zdigits2 mx + ex <= K -> emin <= K -> K <= emax - prec ->
  match binary_round_aux prec emax sx mx ex lx with
  | S754_zero s => s = sx
  | S754_finite s m e => s = sx /\ Z.pos (digits2_pos m) + e <= K + 1
  | _ => False
  end.
Proof.
  intros Hm HK Hemin Hemax. unfold binary_round_aux.
  pose proof (shr_fexp_bound mx ex K lx Hm HK Hemin) as H1. cbv zeta in H1.
  destruct (shr_fexp prec emax mx ex lx) as [mrs' e']. simpl in H1.
  destruct H1 as [H1 H1'].
  set (m1 := round_nearest_even (shr_m mrs') (loc_of_shr_record mrs')).
  pose proof (round_nearest_even_bounds (shr_m mrs') (loc_of_shr_record mrs'))
    as Hr. fold m1 in Hr.
  assert (Hm1 : Zdigits2 m1 + e' <= K + 1).
  { cut (Zdigits2 m1 <= Zdigits2 (shr_m mrs') + 1); [lia|].
    pose proof (Zdigits2_nonneg (shr_m mrs')).
    apply Zdigits2_le_iff; [lia | lia |].
    pose proof (Zdigits2_lt_pow (shr_m mrs') H1).
    rewrite Z.pow_add_r by lia. lia. }
  pose proof (shr_fexp_bound m1 e' (K + 1) loc_Exact ltac:(lia) Hm1 ltac:(lia))
    as H2. cbv zeta in H2.
  destruct (shr_fexp prec emax m1 e' loc_Exact) as [mrs'' e'']. simpl in H2.
  destruct H2 as [H2 H2'].
  destruct (shr_m mrs'') as [|m|m] eqn:Hm2; [reflexivity | | lia].
  simpl in H2'.
  pose proof (Pos2Z.is_pos (digits2_pos m)).
  destruct (e'' <=? emax - prec) eqn:Hle; [split; [reflexivity | lia]|].
  apply Z.leb_gt in Hle. lia.
Qed.

(** Rounding a non-negative mantissa keeps the sign and never gives [NaN]. *)
Lemma binary_round_aux_sign (sx : bool) (mx ex : Z) (lx : location) :
  0 <= mx -> sf_sign (binary_round_aux prec emax sx mx ex lx) = Some sx.
Proof.
  intros Hm. unfold binary_round_aux.
  destruct (shr_fexp prec emax mx ex lx) as [mrs' e'] eqn:E1.
  assert (H1 : 0 <= shr_m mrs').
  { pose proof (shr_spec (shr_record_of_loc mx lx) ex
                  (fexp prec emax (Zdigits2 mx + ex) - ex)) as H.
    rewrite shr_m_of_loc in H. destruct (H Hm) as [H1 _].
    unfold shr_fexp in E1. rewrite E1 in H1. simpl in H1. rewrite H1.
    apply Z.div_pos; [lia | apply Z.pow_pos_nonneg; lia]. }
  set (m1 := round_nearest_even (shr_m mrs') (loc_of_shr_record mrs')).
  pose proof (round_nearest_even_bounds (shr_m mrs') (loc_of_shr_record mrs'))
    as Hr. fold m1 in Hr.
  destruct (shr_fexp prec emax m1 e' loc_Exact) as [mrs'' e''] eqn:E2.
  assert (H2 : 0 <= shr_m mrs'').
  { pose proof (shr_spec (shr_record_of_loc m1 loc_Exact) e'
                  (fexp prec emax (Zdigits2 m1 + e') - e')) as H.
    rewrite shr_m_of_loc in H. destruct (H ltac:(lia)) as [H2 _].
    unfold shr_fexp in E2. rewrite E2 in H2. simpl in H2. rewrite H2.
    apply Z.div_pos; [lia | apply Z.pow_pos_nonneg; lia]. }
  destruct (shr_m mrs'') as [|m|m]; [reflexivity | | lia].
  destruct (e'' <=? emax - prec); reflexivity.
Qed.

(** The quotient mantissa computed by [SFdiv]. *)
Lemma SFdiv_core_bound (m1 : positive) (e1 : Z) (m2 : positive) (e2 : Z) :
  let r := SFdiv_core_binary prec emax (Z.pos m1) e1 (Z.pos m2) e2 in
  let D := (Z.pos (digits2_pos m1) + e1) - (Z.pos (digits2_pos m2) + e2) in
  0 <= fst (fst r) /\
  Zdigits2 (fst (fst r)) + snd (fst r) <= Z.max (D + 1) emin.
Proof.
  intros r D. subst r. unfold SFdiv_core_binary.
  change (Zdigits2 (Z.pos m1)) with (Z.pos (digits2_pos m1)).
  change (Zdigits2 (Z.pos m2)) with (Z.pos (digits2_pos m2)).
  fold D.
  set (d1 := Z.pos (digits2_pos m1)) in *.
  set (d2 := Z.pos (digits2_pos m2)) in *.
  set (e' := Z.min (fexp prec emax D) (e1 - e2)).
  set (s := e1 - e2 - e').
  set (m' := match s with
             | 0 => Z.pos m1
             | Z.pos _ => Z.shiftl (Z.pos m1) s
             | Z.neg _ => 0
             end).
  assert (Hs : 0 <= s) by (subst s e'; lia).
  assert (Hm' : m' = Z.pos m1 * 2 ^ s).
  { subst m'. destruct s as [|p|p]; [simpl; lia | | lia].
    apply Z.shiftl_mul_pow2. lia. }
  assert (H1 : Z.pos m1 < 2 ^ d1)
    by (apply (Zdigits2_lt_pow (Z.pos m1)); lia).
  assert (H2 : 2 ^ (d2 - 1) <= Z.pos m2).
  { destruct (Z.le_gt_cases (2 ^ (d2 - 1)) (Z.pos m2)) as [Hle|Hlt];
      [exact Hle|].
    apply (Zdigits2_le_iff (Z.pos m2) (d2 - 1)) in Hlt; [|lia|subst d2; lia].
    simpl in Hlt. subst d2. lia. }
  assert (Hps : 0 < 2 ^ s) by (apply Z.pow_pos_nonneg; lia).
  assert (Hq : fst (Z.div_eucl m' (Z.pos m2)) = m' / Z.pos m2)
    by (unfold Z.div; now destruct (Z.div_eucl m' (Z.pos m2))).
  change Z.div_eucl with IntDef.Z.div_eucl in Hq.
  destruct (IntDef.Z.div_eucl m' (Z.pos m2)) as [q r]. simpl in Hq |- *.
  assert (Hq0 : 0 <= q) by (rewrite Hq; apply Z.div_pos; nia).
  split; [assumption|].
  set (k := Z.max 0 (d1 + s - d2 + 1)).
  assert (Hk : Zdigits2 q <= k).
  { apply Zdigits2_le_iff; [assumption | subst k; lia |].
    rewrite Hq. apply Z.div_lt_upper_bound; [lia|].
    apply Z.lt_le_trans with (2 ^ (d1 + s)).
    - rewrite Hm', Z.pow_add_r by (subst d1; lia). nia.
    - apply Z.le_trans with (2 ^ (d2 - 1) * 2 ^ k).
      + rewrite <- Z.pow_add_r by (subst d2 k; lia).
        apply Z.pow_le_mono_r; subst k; lia.
      + assert (0 < 2 ^ k) by (apply Z.pow_pos_nonneg; subst k; lia). nia. }
  assert (He' : e' <= Z.max D emin).
  { subst e'. unfold fexp, SpecFloat.emin, prec, emax in *. lia. }
  subst k s. lia.
Qed.

(** Dividing by a finite non-zero number keeps [NaN]s out and follows the
    rule of signs. *)
Lemma SFdiv_finite_sign (x : spec_float) (sc : bool) (mc : positive) (ec : Z) :
  sf_sign (SFdiv prec emax x (S754_finite sc mc ec))
  = option_map (fun s => xorb s sc) (sf_sign x).
Proof.
  destruct x as [s|s| |s m e]; simpl; try reflexivity.
  pose proof (SFdiv_core_bound m e mc ec) as [H _].
  destruct (SFdiv_core_binary prec emax (Z.pos m) e (Z.pos mc) ec)
    as [[mz ez] lz].
  simpl in H. now apply binary_round_aux_sign.
Qed.

Lemma SFmul_finite_sign (x : spec_float) (sc : bool) (mc : positive) (ec : Z) :
  sf_sign (SFmul prec emax x (S754_finite sc mc ec))
  = option_map (fun s => xorb s sc) (sf_sign x).
Proof.
  destruct x as [s|s| |s m e]; simpl; try reflexivity.
  apply binary_round_aux_sign. lia.
Qed.

(** A zero divided by a finite non-zero number is a zero. *)
Lemma SFdiv_zero (s sc : bool) (mc : positive) (ec : Z) :
  SFdiv prec emax (S754_zero s) (S754_finite sc mc ec) = S754_zero (xorb s sc).
Proof. reflexivity. Qed.

Lemma SFmul_zero (s sc : bool) (mc : positive) (ec : Z) :
  SFmul prec emax (S754_zero s) (S754_finite sc mc ec) = S754_zero (xorb s sc).
Proof. reflexivity. Qed.

(** The quotient of two finite numbers is a zero or a finite number whose
    magnitude the operands' bound. *)
Lemma SFdiv_finite_bound (sx : bool) (mx : positive) (ex : Z)
    (sc : bool) (mc : positive) (ec : Z) (K : Z) :
  (Z.pos (digits2_pos mx) + ex) - (Z.pos (digits2_pos mc) + ec) + 1 <= K ->
  emin <= K -> K <= emax - prec ->
  match SFdiv prec emax (S754_finite sx mx ex) (S754_finite sc mc ec) with
  | S754_zero s => s = xorb sx sc
  | S754_finite s m e => s = xorb sx sc /\ Z.pos (digits2_pos m) + e <= K + 1
  | _ => False
  end.
Proof.
  intros HK Hemin Hemax. simpl.
  pose proof (SFdiv_core_bound mx ex mc ec) as [H0 H1].
  destruct (SFdiv_core_binary prec emax (Z.pos mx) ex (Z.pos mc) ec)
    as [[mz ez] lz].
  simpl in H0, H1. apply binary_round_aux_bound; try assumption. lia.
Qed.

(** A valid mantissa has at most 53 binary digits. *)
Lemma valid_digits (s : bool) (m : positive) (e : Z) :
  valid_binary (S754_finite s m e) = true -> Z.pos (digits2_pos m) <= prec.
Proof.
  unfold valid_binary, bounded, canonical_mantissa.
  intros H. apply andb_true_iff in H as [H _]. apply Z.eqb_eq in H.
  unfold fexp, SpecFloat.emin, prec, emax in *. lia.
Qed.

(** Numbers at least a positive constant are positive and not zero. *)
Lemma SFleb_finite_l (x : spec_float) (mc : positive) (ec : Z) :
  SFleb (S754_finite false mc ec) x = true ->
  x = S754_infinity false \/ exists m e, x = S754_finite false m e.
Proof.
  unfold SFleb.
  destruct x as [s|s| |s m e]; simpl; try discriminate.
  - destruct s; [discriminate | auto].
  - destruct s; [discriminate | eauto].
Qed.

(** A finite positive number that is not at least [mc * 2^ec] has an exponent
    of at most [ec]. *)
Lemma SFleb_finite_false (m : positive) (e : Z) (mc : positive) (ec : Z) :
  SFleb (S754_finite false mc ec) (S754_finite false m e) = false -> e <= ec.
Proof.
  unfold SFleb. simpl. destruct (ec ?= e) eqn:Hc.
  - apply Z.compare_eq in Hc. lia.
  - discriminate.
  - intros _. apply Z.compare_gt_iff in Hc. lia.
Qed.

Lemma SFleb_finite_infinity (mc : positive) (ec : Z) :
  SFleb (S754_finite false mc ec) (S754_infinity false) = true.
Proof. reflexivity. Qed.

(** *** Shapes of the formatted text *)

Lemma append_assoc (a b c : string) : (a +:+ b) +:+ c = a +:+ (b +:+ c).
Proof.
  induction a as [|x a IH]; [reflexivity|].
  change (String x ((a +:+ b) +:+ c) = String x (a +:+ (b +:+ c))).
  now rewrite IH.
Qed.

Lemma digitsOnly_uint (d : Decimal.uint) :
  digitsOnly (NilEmpty.string_of_uint d) = true.
Proof. induction d; simpl; auto. Qed.

Lemma numeral_digitsOf (n : Z) : numeral (JS.digitsOf n) = true.
Proof.
  unfold JS.digitsOf, NilZero.string_of_uint.
  pose proof (digitsOnly_uint (N.to_uint (Z.to_N n))) as H.
  destruct (N.to_uint (Z.to_N n)); simpl in *; auto.
Qed.

Lemma digitsOnly_append (a b : string) :
  digitsOnly (a +:+ b) = digitsOnly a && digitsOnly b.
Proof.
  induction a as [|x a IH]; [reflexivity|].
  change (JS.isDigit x && digitsOnly (a +:+ b)
          = JS.isDigit x && digitsOnly a && digitsOnly b).
  rewrite IH. now rewrite andb_assoc.
Qed.

Lemma digitsOnly_replicate0 (n : nat) : digitsOnly (JS.replicate0 n) = true.
Proof. induction n; simpl; auto. Qed.

Lemma length_append (a b : string) :
  String.length (a +:+ b) = (String.length a + String.length b)%nat.
Proof.
  induction a as [|x a IH]; [reflexivity|].
  change (S (String.length (a +:+ b))
          = S (String.length a + String.length b)).
  now rewrite IH.
Qed.

Lemma length_replicate0 (n : nat) : String.length (JS.replicate0 n) = n.
Proof. induction n; simpl; congruence. Qed.

(** A run of digits splits into what precedes its last digit and that
    digit. *)
Lemma split_last_digit (t : string) :
  digitsOnly t = true -> t <> EmptyString ->
  exists (v : string) (d : ascii),
    substring 0 (String.length t - 1) t = v /\
    digitsOnly v = true /\ String.length v = (String.length t - 1)%nat /\
    substring (String.length t - 1) 1 t = String d EmptyString /\
    JS.isDigit d = true.
Proof.
  induction t as [|c r IH]; intros Hd Hne; [congruence|].
  simpl in Hd. apply andb_true_iff in Hd as [Hc Hr].
  destruct (string_dec r EmptyString) as [->|Hr0].
  - exists EmptyString, c. simpl. auto.
  - destruct (IH Hr Hr0) as (v & d & Hv & Hvd & Hvl & Hl & Hdd).
    exists (String c v), d.
    assert (Hlen : (String.length (String c r) - 1
                    = S (String.length r - 1))%nat).
    { destruct r; [congruence | simpl; lia]. }
    rewrite Hlen. set (k := (String.length r - 1)%nat) in *.
    change (substring 0 (S k) (String c r)) with (String c (substring 0 k r)).
    change (substring (S k) 1 (String c r)) with (substring k 1 r).
    rewrite Hv, Hl. simpl. rewrite Hc, Hvd, Hvl. auto.
Qed.

(** With no decimals a natural number is written as its digits; with one
    decimal, as a numeral, a point and one digit. *)
Lemma placePoint_0 (n : Z) : numeral (JS.placePoint n 0) = true.
Proof. apply numeral_digitsOf. Qed.

Lemma placePoint_1 (n : Z) :
  exists (v : string) (d : ascii),
    numeral v = true /\ JS.isDigit d = true /\
    JS.placePoint n 1 = v +:+ "." +:+ String d EmptyString.
Proof.
  unfold JS.placePoint.
  set (m := JS.digitsOf n).
  set (m' := JS.replicate0 (2 - String.length m) +:+ m).
  assert (Hm : numeral m = true) by apply numeral_digitsOf.
  assert (Hd : digitsOnly m' = true).
  { subst m'. rewrite digitsOnly_append, digitsOnly_replicate0.
    destruct m; [discriminate | exact Hm]. }
  assert (Hl : (2 <= String.length m')%nat).
  { subst m'. rewrite length_append, length_replicate0. lia. }
  destruct (split_last_digit m' Hd) as (v & d & Hv & Hvd & Hvl & Hlast & Hdd).
  { intros E. rewrite E in Hl. simpl in Hl. lia. }
  exists v, d. rewrite Hv, Hlast. repeat split; try assumption.
  destruct v; [simpl in Hvl; lia | exact Hvd].
Qed.

Lemma toFixed_0_numeral (x : float) :
  belowCutoff (Prim2SF x) -> numeral (JS.toFixed x 0) = true.
Proof.
  unfold JS.toFixed, belowCutoff.
  destruct (Prim2SF x) as [s|s| |s m e]; try contradiction.
  - intros _. apply placePoint_0.
  - intros [-> ->]. apply placePoint_0.
Qed.

Lemma toFixed_1_shape (x : float) :
  belowCutoff (Prim2SF x) ->
  exists (v : string) (d : ascii),
    numeral v = true /\ JS.isDigit d = true /\
    JS.toFixed x 1 = v +:+ "." +:+ String d EmptyString.
Proof.
  unfold JS.toFixed, belowCutoff.
  destruct (Prim2SF x) as [s|s| |s m e]; try contradiction.
  - intros _. apply placePoint_1.
  - intros [-> ->]. apply placePoint_1.
Qed.

(** Magnitudes below [2^69] are below the cutoff. *)
Lemma small_belowCutoff (m : positive) (e : Z) :
  Z.pos (digits2_pos m) + e <= 69 ->
  (10 ^ 21 * JS.exact_den e <=? JS.exact_num m e) = false.
Proof.
  intros H. apply Z.leb_gt. unfold JS.exact_den, JS.exact_num.
  pose proof (Zdigits2_lt_pow (Z.pos m) ltac:(lia)) as Hm. simpl in Hm.
  set (d := Z.pos (digits2_pos m)) in *.
  assert (Hd : 0 < d) by (subst d; lia).
  assert (H69 : 2 ^ 69 < 10 ^ 21) by reflexivity.
  destruct (0 <=? e) eqn:He.
  - apply Z.leb_le in He.
    apply Z.lt_le_trans with (2 ^ (d + e)).
    + rewrite Z.pow_add_r by lia.
      assert (0 < 2 ^ e) by (apply Z.pow_pos_nonneg; lia). nia.
    + apply Z.le_trans with (2 ^ 69); [apply Z.pow_le_mono_r; lia | lia].
  - apply Z.leb_gt in He.
    assert (Hp : 0 < 2 ^ (- e)) by (apply Z.pow_pos_nonneg; lia).
    apply Z.lt_le_trans with (2 ^ d); [assumption|].
    destruct (Z.le_gt_cases d (- e)) as [Hle|Hgt].
    + apply Z.le_trans with (2 ^ (- e)); [apply Z.pow_le_mono_r; lia | nia].
    + replace d with ((d + e) + (- e)) by lia.
      rewrite Z.pow_add_r by lia.
      assert (2 ^ (d + e) <= 2 ^ 69) by (apply Z.pow_le_mono_r; lia).
      nia.
Qed.

(** *** The constants of [calculations.ts] as binary64 numbers *)

Lemma Prim2SF_1e9 :
  Prim2SF 1000000000%float = S754_finite false 8388608000000000 (-23).
Proof. reflexivity. Qed.

Lemma Prim2SF_1e6 :
  Prim2SF 1000000%float = S754_finite false 8589934592000000 (-33).
Proof. reflexivity. Qed.

Lemma Prim2SF_1e3 :
  Prim2SF 1000%float = S754_finite false 8796093022208000 (-43).
Proof. reflexivity. Qed.

Lemma Prim2SF_100 :
  Prim2SF 100%float = S754_finite false 7036874417766400 (-46).
Proof. reflexivity. Qed.

Lemma Prim2SF_1e21 :
  Prim2SF 1e21%float = S754_finite false 7629394531250000 17.
Proof. reflexivity. Qed.

(** *** The valuation *)

(** Scaling by the positive constants keeps the sign and keeps [NaN] out. *)
Lemma scaled_sign (a : float) :
  sf_sign (Prim2SF (a / MAX_VALUATION * 100)%float) = sf_sign (Prim2SF a).
Proof.
  rewrite mul_spec, div_spec. unfold MAX_VALUATION, SF64mul, SF64div.
  rewrite Prim2SF_1e9, Prim2SF_100, SFmul_finite_sign, SFdiv_finite_sign.
  destruct (sf_sign (Prim2SF a)) as [s|]; simpl; [|reflexivity].
  now rewrite !xorb_false_r.
Qed.

Lemma scaled_zero (a : float) (s : bool) :
  Prim2SF a = S754_zero s ->
  Prim2SF (a / MAX_VALUATION * 100)%float = S754_zero s.
Proof.
  intros Ha. rewrite mul_spec, div_spec. unfold MAX_VALUATION, SF64mul, SF64div.
  rewrite Prim2SF_1e9, Prim2SF_100, Ha, SFdiv_zero, SFmul_zero.
  now rewrite !xorb_false_r.
Qed.

Lemma scaled_nonneg (a : float) :
  (0 <=? a)%float = true -> (0 <=? a / MAX_VALUATION * 100)%float = true.
Proof.
  rewrite !leb_zero_spec. intros [[s Hs]|Hs].
  - left. exists s. now apply scaled_zero.
  - right. now rewrite scaled_sign.
Qed.

Lemma leb_zero_not_nan (y : float) :
  (0 <=? y)%float = true -> is_nan y = false.
Proof.
  rewrite leb_zero_spec, is_nan_false_sign. intros [[s Hs]|Hs].
  - rewrite Hs. simpl. eauto.
  - eauto.
Qed.

Lemma Math_min_100_nonneg (y : float) :
  (0 <=? y)%float = true -> (0 <=? JS.Math_min y 100)%float = true.
Proof.
  intros Hy. unfold JS.Math_min. rewrite (leb_zero_not_nan y Hy).
  change (is_nan 100) with false. simpl.
  destruct (y <? 100)%float; [assumption|].
  destruct (100 <? y)%float; [reflexivity|].
  destruct (get_sign y); [assumption | reflexivity].
Qed.

Lemma ltb_leb (x y : float) :
  (x <? y)%float = true -> (x <=? y)%float = true.
Proof.
  rewrite ltb_spec, leb_spec. unfold SFltb, SFleb.
  destruct (SFcompare (Prim2SF x) (Prim2SF y)) as [[]|]; congruence.
Qed.

(** Two comparable numbers neither of which is below the other compare
    equal. *)
Lemma not_ltb_leb (x y : float) :
  is_nan x = false -> is_nan y = false ->
  (y <? x)%float = false -> (x <=? y)%float = true.
Proof.
  intros Hx Hy. rewrite ltb_spec, leb_spec. unfold SFltb, SFleb.
  rewrite (SFcompare_antisym (Prim2SF x) (Prim2SF y)).
  apply is_nan_false_sign in Hx as [sx Hx], Hy as [sy Hy].
  destruct (SFcompare (Prim2SF x) (Prim2SF y)) as [[]|] eqn:Hc; simpl;
    try congruence.
  destruct (Prim2SF x), (Prim2SF y); simpl in *; congruence.
Qed.

Lemma Math_min_100_le (y : float) :
  is_nan y = false -> (JS.Math_min y 100 <=? 100)%float = true.
Proof.
  intros Hy. unfold JS.Math_min. rewrite Hy.
  change (is_nan 100) with false. simpl.
  destruct (y <? 100)%float eqn:H1; [now apply ltb_leb|].
  destruct (100 <? y)%float eqn:H2; [reflexivity|].
  destruct (get_sign y); [|reflexivity].
  now apply not_ltb_leb.
Qed.

Lemma scaled_not_nan (a : float) :
  is_nan a = false -> is_nan (a / MAX_VALUATION * 100)%float = false.
Proof. rewrite !is_nan_false_sign, scaled_sign. auto. Qed.

(** C1, as the specification states it, fails on a negative amount: with
    ebitda -10, multiple 10 and factor score 3 the amount is -300 and the
    percentage is negative, since only the upper bound is clamped. *)
Lemma negative_amount_negative_percentage :
  let data := {| ebitda := -10; interestRate := 20; multiple := 10;
                 factorScore := 3; companyName := VStr "ABC Corp.";
                 description := VStr "A company" |} in
  amount (calculateValuation data) = (-300)%float /\
  (percentage (calculateValuation data) <? 0)%float = true /\
  (0 <=? percentage (calculateValuation data))%float = false.
Proof. repeat split; vm_compute; reflexivity. Qed.

(** A negative amount stays negative when scaled, so it is below 100. *)
Lemma ltb_zero_sign (a : float) :
  (a <? 0)%float = true -> sf_sign (Prim2SF a) = Some true.
Proof.
  rewrite ltb_spec.
  replace (Prim2SF 0%float) with (S754_zero false) by reflexivity.
  unfold SFltb. destruct (Prim2SF a) as [s|s| |s m e]; simpl;
    try discriminate; destruct s; simpl; try discriminate; reflexivity.
Qed.

Lemma negative_sign_below_100 (y : float) :
  sf_sign (Prim2SF y) = Some true -> (y <? 100)%float = true.
Proof.
  rewrite ltb_spec, Prim2SF_100. unfold SFltb, SFcompare.
  destruct (Prim2SF y) as [s|s| |s m e]; cbn [sf_sign]; try discriminate;
    intros H; injection H as ->; reflexivity.
Qed.

Lemma Math_min_100_negative (y : float) :
  sf_sign (Prim2SF y) = Some true -> JS.Math_min y 100 = y.
Proof.
  intros Hy. unfold JS.Math_min.
  assert (Hn : is_nan y = false) by (apply is_nan_false_sign; eauto).
  rewrite Hn. change (is_nan 100) with false. simpl.
  now rewrite (negative_sign_below_100 y Hy).
Qed.

(** C1 (amended). For every SimulationData, calculateValuation returns the
    amount ebitda * multiple * factorScore (the binary64 product, no rounding
    step applied to it), the percentage
    Math.min(amount / MAX_VALUATION * 100, 100) and the ceiling
    MAX_VALUATION = 1e9.  The percentage is at most 100 whenever the amount
    is a number (not NaN), and it is in [0, 100] whenever the amount is not
    negative.  Nothing clamps it from below: for a negative amount it is
    amount / MAX_VALUATION * 100 itself. *)
Theorem calculateValuation_formula (data : SimulationData) :
  let v := calculateValuation data in
  amount v = (ebitda data * multiple data * factorScore data)%float /\
  percentage v = JS.Math_min (amount v / MAX_VALUATION * 100)%float 100%float /\
  maxValuation v = 1000000000%float /\
  (is_nan (amount v) = false -> (percentage v <=? 100)%float = true) /\
  ((0 <=? amount v)%float = true ->
   (0 <=? percentage v)%float = true /\ (percentage v <=? 100)%float = true) /\
  ((amount v <? 0)%float = true ->
   percentage v = (amount v / MAX_VALUATION * 100)%float).
Proof.
  simpl. repeat split.
  - intros Hn. apply Math_min_100_le. now apply scaled_not_nan.
  - apply Math_min_100_nonneg. now apply scaled_nonneg.
  - apply Math_min_100_le, scaled_not_nan. now apply leb_zero_not_nan.
  - intros Hneg. apply Math_min_100_negative.
    rewrite scaled_sign. now apply ltb_zero_sign.
Qed.

Lemma calculateValuation_formula_witness :
  let v := calculateValuation initialSimulationData in
  (0 <=? amount v)%float = true /\
  amount v = 300%float /\
  (0 <=? percentage v)%float = true /\ (percentage v <=? 100)%float = true.
Proof.
  intros v.
  assert (Ha : (0 <=? amount v)%float = true) by reflexivity.
  split; [exact Ha|]. split; [reflexivity|].
  exact (proj1 (proj2 (proj2 (proj2 (proj2
           (calculateValuation_formula initialSimulationData))))) Ha).
Defined.

(** *** The currency formatter *)

(** An amount in a tier, divided by the tier's unit, is a zero or a positive
    finite number far below 10^21. *)
Lemma tier_quotient_belowCutoff (a lo hi : float)
    (mlo : positive) (elo : Z) (mhi : positive) (ehi : Z) :
  Prim2SF lo = S754_finite false mlo elo ->
  Prim2SF hi = S754_finite false mhi ehi ->
  emin <= prec + ehi - (Z.pos (digits2_pos mlo) + elo) + 1 <= 68 ->
  JS.geb a hi = false -> JS.geb a lo = true ->
  belowCutoff (Prim2SF (a / lo)%float).
Proof.
  intros Hlo Hhi HK Hah Hal. unfold JS.geb in *.
  rewrite leb_spec, Hhi in Hah. rewrite leb_spec, Hlo in Hal.
  pose proof (Prim2SF_valid a) as Hv.
  rewrite div_spec, Hlo. unfold SF64div.
  destruct (SFleb_finite_l _ _ _ Hal) as [Ha|(m & e & Ha)]; rewrite Ha in *.
  - rewrite SFleb_finite_infinity in Hah. discriminate.
  - apply SFleb_finite_false in Hah. apply valid_digits in Hv.
    pose proof (SFdiv_finite_bound false m e false mlo elo
                  (prec + ehi - (Z.pos (digits2_pos mlo) + elo) + 1)
                  ltac:(lia) ltac:(lia) ltac:(unfold emax, prec in *; lia))
      as Hb.
    destruct (SFdiv prec emax (S754_finite false m e)
                (S754_finite false mlo elo)) as [s|s| |s m' e'];
      simpl; try contradiction; [exact I|].
    destruct Hb as [-> Hb]. split; [reflexivity|].
    apply small_belowCutoff. lia.
Qed.

Lemma below_1e3_belowCutoff (a : float) :
  JS.geb a 1000 = false -> JS.geb a 0 = true -> belowCutoff (Prim2SF a).
Proof.
  unfold JS.geb. intros Hah Hal.
  rewrite leb_spec, Prim2SF_1e3 in Hah.
  apply leb_zero_spec in Hal. pose proof (Prim2SF_valid a) as Hv.
  destruct (Prim2SF a) as [s|s| |s m e]; simpl.
  - exact I.
  - destruct Hal as [[s' Hs]|Hs]; [discriminate|].
    injection Hs as ->. discriminate.
  - destruct Hal as [[s' Hs]|Hs]; discriminate.
  - destruct Hal as [[s' Hs]|Hs]; [discriminate|]. injection Hs as ->.
    apply SFleb_finite_false in Hah. apply valid_digits in Hv.
    split; [reflexivity|]. apply small_belowCutoff.
    unfold prec in Hv. lia.
Qed.

(** Below 10^21 at the exponent of 10^21. *)
Lemma cutoff_17 (m : positive) :
  Z.pos m < 7629394531250000 ->
  (10 ^ 21 * JS.exact_den 17 <=? JS.exact_num m 17) = false.
Proof.
  intros Hm. apply Z.leb_gt.
  replace (JS.exact_den 17) with 1 by reflexivity.
  replace (JS.exact_num m 17) with (Z.pos m * 131072) by reflexivity.
  replace (10 ^ 21) with (7629394531250000 * 131072) by reflexivity.
  lia.
Qed.

(** The order of two positive finite numbers is that of their exponents, then
    of their mantissas. *)
Lemma SFltb_finite (m : positive) (e : Z) (mc : positive) (ec : Z) :
  SFltb (S754_finite false m e) (S754_finite false mc ec) = true ->
  e < ec \/ (e = ec /\ Z.pos m < Z.pos mc).
Proof.
  unfold SFltb, SFcompare. destruct (e ?= ec) eqn:He.
  - apply Z.compare_eq in He. rewrite Pos.compare_cont_spec.
    unfold Pos.switch_Eq.
    destruct (Pos.compare_spec m mc) as [Hm|Hm|Hm]; try discriminate.
    intros _. right. split; [assumption | now apply Pos2Z.pos_lt_pos].
  - rewrite Z.compare_lt_iff in He. auto.
  - discriminate.
Qed.

(** A quotient of an amount of at least 1e9 that is below 1e21. *)
Lemma billions_belowCutoff (a : float) :
  JS.geb a 1000000000 = true ->
  (a / 1000000000 <? 1e21)%float = true ->
  belowCutoff (Prim2SF (a / 1000000000)%float).
Proof.
  unfold JS.geb. intros Hal Hq.
  rewrite leb_spec, Prim2SF_1e9 in Hal.
  rewrite ltb_spec, Prim2SF_1e21 in Hq.
  pose proof (Prim2SF_valid (a / 1000000000)%float) as Hv.
  assert (Hs : sf_sign (Prim2SF (a / 1000000000)%float) = Some false).
  { rewrite div_spec, Prim2SF_1e9. unfold SF64div.
    rewrite SFdiv_finite_sign.
    destruct (SFleb_finite_l _ _ _ Hal) as [Ha|(m & e & Ha)]; now rewrite Ha. }
  destruct (Prim2SF (a / 1000000000)%float) as [s|s| |s m e]; simpl.
  - exact I.
  - injection Hs as ->. discriminate.
  - discriminate.
  - injection Hs as ->. split; [reflexivity|].
    apply valid_digits in Hv. unfold prec in Hv.
    destruct (SFltb_finite _ _ _ _ Hq) as [He|[-> Hm]].
    + apply small_belowCutoff. lia.
    + now apply cutoff_17.
Qed.

(** An amount that is not at least a tier's lower bound is not at least the
    next tier's either. *)
Lemma geb_1e6_false (a : float) :
  JS.geb a 1000000 = false -> JS.geb a 1000000000 = false.
Proof.
  unfold JS.geb. rewrite !leb_spec, Prim2SF_1e6, Prim2SF_1e9.
  destruct (Prim2SF a) as [s|s| |s m e]; try reflexivity.
  - destruct s; [reflexivity | discriminate].
  - destruct s; [reflexivity|]. intros H.
    apply SFleb_finite_false in H. unfold SFleb, SFcompare.
    assert (Hc : (-23 ?= e) = Gt) by (apply Z.compare_gt_iff; lia).
    now rewrite Hc.
Qed.

Lemma geb_1e3_false (a : float) :
  JS.geb a 1000 = false -> JS.geb a 1000000 = false.
Proof.
  unfold JS.geb. rewrite !leb_spec, Prim2SF_1e3, Prim2SF_1e6.
  destruct (Prim2SF a) as [s|s| |s m e]; try reflexivity.
  - destruct s; [reflexivity | discriminate].
  - destruct s; [reflexivity|]. intros H.
    apply SFleb_finite_false in H. unfold SFleb, SFcompare.
    assert (Hc : (-33 ?= e) = Gt) by (apply Z.compare_gt_iff; lia).
    now rewrite Hc.
Qed.

(** C9, as the specification states it, fails on the largest amounts: from
    1e21 on, [toFixed] writes its number in exponential notation, and it
    writes the text of an infinity.  The amount 1e30 (the text ["1e30"] typed
    into an input) is formatted [$1e+21B], with no decimal. *)
Lemma huge_amount_exponential :
  JS.geb (JS.parseFloat "1e30") 0 = true /\
  JS.geb (JS.parseFloat "1e30") 1000000000 = true /\
  formatCurrency (JS.parseFloat "1e30") = "$1e+21B" /\
  formatCurrency infinity = "$InfinityB".
Proof. repeat split; vm_compute; reflexivity. Qed.

(** The exact value of a finite number is a fraction of positive parts. *)
Lemma exact_den_pos (e : Z) : 0 < JS.exact_den e.
Proof.
  unfold JS.exact_den. destruct (0 <=? e) eqn:He; [lia|].
  apply Z.leb_gt in He. apply Z.pow_pos_nonneg; lia.
Qed.

Lemma exact_num_pos (m : positive) (e : Z) : 0 < JS.exact_num m e.
Proof.
  unfold JS.exact_num. destruct (0 <=? e) eqn:He; [|lia].
  apply Z.leb_le in He.
  assert (0 < 2 ^ e) by (apply Z.pow_pos_nonneg; lia). nia.
Qed.

(** Below the cutoff [toFixed] writes the integer nearest to [x * 10^f] with
    the point before its last [f] digits. *)
Lemma toFixed_nearest (x : float) (f : nat) :
  belowCutoff (Prim2SF x) ->
  exists n : Z,
    0 <= n /\ nearestScaled x f n /\ JS.toFixed x f = JS.placePoint n f.
Proof.
  unfold JS.toFixed, belowCutoff, nearestScaled.
  destruct (Prim2SF x) as [s|s| |s m e]; try contradiction.
  - intros _. exists 0. split; [lia|]. split; reflexivity.
  - intros [-> Hc]. cbv zeta. rewrite Hc.
    pose proof (exact_den_pos e) as Hd. pose proof (exact_num_pos m e) as Hn.
    set (num := JS.exact_num m e) in *. set (den := JS.exact_den e) in *.
    assert (Hp : 0 < 10 ^ Z.of_nat f) by (apply Z.pow_pos_nonneg; lia).
    set (t := 2 * num * 10 ^ Z.of_nat f + den).
    exists (t / (2 * den)). split; [apply Z.div_pos; subst t; nia|].
    split; [|reflexivity].
    pose proof (Z.mul_div_le t (2 * den) ltac:(lia)).
    pose proof (Z.mul_succ_div_gt t (2 * den) ltac:(lia)).
    lia.
Qed.

(** C9 (amended). formatCurrency returns "$" followed by
    - for amounts >= 1e9: amount / 1e9 to one decimal, then "B"; whenever
      that quotient is below 1e21 this is the integer n nearest to ten times
      the quotient, written with a point before its last digit: a numeral, a
      point and one digit;
    - otherwise, for amounts >= 1e6: amount / 1e6 with no decimals, that is
      the numeral of the integer nearest to that quotient, then " million";
    - otherwise, for amounts >= 1e3: amount / 1e3 with no decimals, the
      numeral of the integer nearest to that quotient, then "K";
    - otherwise, for amounts >= 0: the amount with no decimals, the numeral
      of the integer nearest to it.
    The quotients are the binary64 ones and at a tie the larger integer is
    taken.  The amount 300 is formatted "$300", 999.5 "$1000", 1000 "$1K",
    2500 "$3K", 1500000 "$2 million" and 2500000000 "$2.5B". *)
Theorem formatCurrency_tiers (a : float) :
  (JS.geb a 1000000000 = true ->
   formatCurrency a = "$" +:+ JS.toFixed (a / 1000000000)%float 1 +:+ "B" /\
   ((a / 1000000000 <? 1e21)%float = true ->
    exists (n : Z) (v : string) (d : ascii),
      0 <= n /\ nearestScaled (a / 1000000000)%float 1 n /\
      JS.placePoint n 1 = v +:+ "." +:+ String d EmptyString /\
      numeral v = true /\ JS.isDigit d = true /\
      formatCurrency a = "$" +:+ v +:+ "." +:+ String d "B")) /\
  (JS.geb a 1000000000 = false -> JS.geb a 1000000 = true ->
   formatCurrency a = "$" +:+ JS.toFixed (a / 1000000)%float 0 +:+ " million" /\
   exists n : Z,
     0 <= n /\ nearestScaled (a / 1000000)%float 0 n /\
     numeral (JS.digitsOf n) = true /\
     formatCurrency a = "$" +:+ JS.digitsOf n +:+ " million") /\
  (JS.geb a 1000000 = false -> JS.geb a 1000 = true ->
   formatCurrency a = "$" +:+ JS.toFixed (a / 1000)%float 0 +:+ "K" /\
   exists n : Z,
     0 <= n /\ nearestScaled (a / 1000)%float 0 n /\
     numeral (JS.digitsOf n) = true /\
     formatCurrency a = "$" +:+ JS.digitsOf n +:+ "K") /\
  (JS.geb a 1000 = false -> JS.geb a 0 = true ->
   formatCurrency a = "$" +:+ JS.toFixed a 0 /\
   exists n : Z,
     0 <= n /\ nearestScaled a 0 n /\
     numeral (JS.digitsOf n) = true /\
     formatCurrency a = "$" +:+ JS.digitsOf n) /\
  formatCurrency 300 = "$300" /\
  formatCurrency 999.5 = "$1000" /\
  formatCurrency 1000 = "$1K" /\
  formatCurrency 2500 = "$3K" /\
  formatCurrency 1500000 = "$2 million" /\
  formatCurrency 2500000000 = "$2.5B".
Proof.
  split; [|split; [|split; [|split]]].
  - intros H9. unfold formatCurrency. rewrite H9. split; [reflexivity|].
    intros Hq.
    destruct (toFixed_nearest _ 1 (billions_belowCutoff a H9 Hq))
      as (n & Hn0 & Hn & Ht).
    destruct (placePoint_1 n) as (v & d & Hv & Hd & Hp).
    exists n, v, d. rewrite Ht, Hp.
    split; [exact Hn0|]. split; [exact Hn|]. split; [reflexivity|].
    split; [exact Hv|]. split; [exact Hd|].
    now rewrite !append_assoc.
  - intros H9 H6. unfold formatCurrency. rewrite H9, H6.
    split; [reflexivity|].
    destruct (toFixed_nearest (a / 1000000)%float 0) as (n & Hn0 & Hn & Ht).
    { apply (tier_quotient_belowCutoff a _ _ _ _ _ _ Prim2SF_1e6 Prim2SF_1e9);
        [vm_compute; split; discriminate | assumption | assumption]. }
    exists n. rewrite Ht.
    split; [exact Hn0|]. split; [exact Hn|].
    split; [apply numeral_digitsOf | reflexivity].
  - intros H6 H3. unfold formatCurrency.
    rewrite (geb_1e6_false a H6), H6, H3.
    split; [reflexivity|].
    destruct (toFixed_nearest (a / 1000)%float 0) as (n & Hn0 & Hn & Ht).
    { apply (tier_quotient_belowCutoff a _ _ _ _ _ _ Prim2SF_1e3 Prim2SF_1e6);
        [vm_compute; split; discriminate | assumption | assumption]. }
    exists n. rewrite Ht.
    split; [exact Hn0|]. split; [exact Hn|].
    split; [apply numeral_digitsOf | reflexivity].
  - intros H3 H0. unfold formatCurrency.
    rewrite (geb_1e6_false a (geb_1e3_false a H3)), (geb_1e3_false a H3), H3.
    split; [reflexivity|].
    destruct (toFixed_nearest a 0 (below_1e3_belowCutoff a H3 H0))
      as (n & Hn0 & Hn & Ht).
    exists n. rewrite Ht.
    split; [exact Hn0|]. split; [exact Hn|].
    split; [apply numeral_digitsOf | reflexivity].
  - repeat split; vm_compute; reflexivity.
Qed.

Lemma formatCurrency_tiers_witness :
  JS.geb 2500000000 1000000000 = true /\
  (2500000000 / 1000000000 <? 1e21)%float = true /\
  formatCurrency 2500000000
  = "$" +:+ JS.toFixed (2500000000 / 1000000000)%float 1 +:+ "B" /\
  JS.geb 1500000 1000000000 = false /\ JS.geb 1500000 1000000 = true /\
  formatCurrency 1500000
  = "$" +:+ JS.toFixed (1500000 / 1000000)%float 0 +:+ " million" /\
  (exists n : Z,
     0 <= n /\ nearestScaled (1500000 / 1000000)%float 0 n /\
     numeral (JS.digitsOf n) = true /\
     formatCurrency 1500000 = "$" +:+ JS.digitsOf n +:+ " million").
Proof.
  split; [reflexivity|]. split; [reflexivity|].
  split; [exact (proj1 (proj1 (formatCurrency_tiers 2500000000) eq_refl))|].
  split; [reflexivity|]. split; [reflexivity|].
  exact (proj1 (proj2 (formatCurrency_tiers 1500000)) eq_refl eq_refl).
Defined.

(** ** Further properties of the store and of its callers *)

(** *** The review statuses *)

Lemma fieldKey_inj (f g : SimulationField) : fieldKey f = fieldKey g -> f = g.
Proof. destruct f, g; simpl; intros H; try reflexivity; discriminate H. Qed.

(** X1. updateFieldStatus(field, status) sets the review status of that
    field to the given status and changes nothing else: the status of every
    other field and of every other key of fieldStatus, the simulation
    inputs, the valuation, the timer, the user and the three visibility
    flags are as before. *)
Theorem updateFieldStatus_one_entry (field : SimulationField)
    (status : FieldToggleStatus) (state : AppState) :
  let state' := updateFieldStatus field status state in
  statusOf field state' = Some status /\
  (forall g : SimulationField,
     g <> field -> statusOf g state' = statusOf g state) /\
  (forall k : string,
     k <> fieldKey field -> fieldStatus state' !! k = fieldStatus state !! k) /\
  simulation state' = simulation state /\
  valuation state' = valuation state /\
  timer state' = timer state /\
  user state' = user state /\
  isFirstTimeGuidanceOpen state' = isFirstTimeGuidanceOpen state /\
  isVideoModalOpen state' = isVideoModalOpen state /\
  isTextModalOpen state' = isTextModalOpen state.
Proof.
  unfold statusOf. simpl. split; [apply lookup_insert_eq|]. split; [|split].
  - intros g Hg. apply lookup_insert_ne.
    intros Hk. apply Hg. symmetry. now apply fieldKey_inj.
  - intros k Hk. apply lookup_insert_ne. congruence.
  - repeat split.
Qed.

Lemma updateFieldStatus_one_entry_witness :
  F_ebitda <> F_description /\
  statusOf F_ebitda (updateFieldStatus F_description OK initialState)
  = statusOf F_ebitda initialState.
Proof.
  assert (H : F_ebitda <> F_description) by discriminate.
  split; [exact H|].
  exact (proj1 (proj2 (updateFieldStatus_one_entry F_description OK
                         initialState)) F_ebitda H).
Defined.

(** X2. Review statuses compose as writes to a map: of two updates of the
    same field the later one wins, updates of two different fields can be
    made in either order, and setting a field to the status it already has
    leaves the state unchanged. *)
Theorem updateFieldStatus_compose (f g : SimulationField)
    (s1 s2 : FieldToggleStatus) (state : AppState) :
  updateFieldStatus f s2 (updateFieldStatus f s1 state)
  = updateFieldStatus f s2 state /\
  (f <> g ->
   updateFieldStatus f s1 (updateFieldStatus g s2 state)
   = updateFieldStatus g s2 (updateFieldStatus f s1 state)) /\
  (statusOf f state = Some s1 -> updateFieldStatus f s1 state = state).
Proof.
  unfold updateFieldStatus, statusOf. simpl. split; [|split].
  - now rewrite insert_insert_eq.
  - intros Hfg. f_equal. apply insert_insert_ne.
    intros Hk. apply Hfg. now apply fieldKey_inj.
  - intros Hs. rewrite (insert_id _ _ _ Hs). now destruct state.
Qed.

Lemma updateFieldStatus_compose_witness :
  F_ebitda <> F_multiple /\
  updateFieldStatus F_ebitda TBD (updateFieldStatus F_multiple TBD initialState)
  = updateFieldStatus F_multiple TBD (updateFieldStatus F_ebitda TBD initialState) /\
  statusOf F_ebitda initialState = Some OK /\
  updateFieldStatus F_ebitda OK initialState = initialState.
Proof.
  assert (H : F_ebitda <> F_multiple) by discriminate.
  assert (Hs : statusOf F_ebitda initialState = Some OK) by reflexivity.
  split; [exact H|]. split.
  - exact (proj1 (proj2 (updateFieldStatus_compose F_ebitda F_multiple TBD TBD
                           initialState)) H).
  - split; [exact Hs|].
    exact (proj2 (proj2 (updateFieldStatus_compose F_ebitda F_ebitda OK OK
                           initialState)) Hs).
Defined.

(** *** The visibility flags and the user *)

(** X3. toggleFirstTimeGuidance flips the guidance flag and so always
    changes the state; toggling twice gives back the state it started
    from. *)
Theorem toggleFirstTimeGuidance_involution (state : AppState) :
  toggleFirstTimeGuidance (toggleFirstTimeGuidance state) = state /\
  isFirstTimeGuidanceOpen (toggleFirstTimeGuidance state)
  = negb (isFirstTimeGuidanceOpen state) /\
  toggleFirstTimeGuidance state <> state.
Proof.
  destruct state as [sim fs val t u g vm tm].
  unfold toggleFirstTimeGuidance, setFlags. simpl.
  rewrite negb_involutive. split; [reflexivity|]. split; [reflexivity|].
  intros H. injection H as H. now destruct g.
Qed.



(** X5. setUserRole replaces the role and keeps the name, setUserName
    replaces the name and keeps the role; the two can be made in either
    order, of two calls of the same setter the later one wins, and setting
    the role the user already has changes nothing. *)
Theorem user_setters_compose (r r' : Role) (n n' : string) (state : AppState) :
  role (user (setUserRole r state)) = r /\
  name (user (setUserRole r state)) = name (user state) /\
  name (user (setUserName n state)) = n /\
  role (user (setUserName n state)) = role (user state) /\
  setUserRole r (setUserName n state) = setUserName n (setUserRole r state) /\
  setUserRole r' (setUserRole r state) = setUserRole r' state /\
  setUserName n' (setUserName n state) = setUserName n' state /\
  (role (user state) = r -> setUserRole r state = state).
Proof.
  destruct state as [sim fs val t [un ur] g vm tm].
  unfold setUserRole, setUserName, setUser. simpl.
  repeat (split; [reflexivity|]). intros Hc. subst. reflexivity.
Qed.

Lemma user_setters_compose_witness :
  role (user initialState) = team1 /\ setUserRole team1 initialState = initialState.
Proof.
  split; [reflexivity|].
  exact (proj2 (proj2 (proj2 (proj2 (proj2 (proj2 (proj2
           (user_setters_compose team1 team1 "a" "b" initialState)))))))
           eq_refl).
Defined.

(** *** Reset *)

(** X6. resetSimulation absorbs what was done before it to the inputs,
    the statuses and the timer: after updateSimulationField,
    updateFieldStatus, incrementTimer, resetTimer or resetSimulation it gives
    the same state as without that action.  With every other action it
    commutes.  It is idempotent, and resetTimer after it changes nothing. *)
Theorem resetSimulation_absorbs (a : Action) (state : AppState) :
  resetSimulation (dispatch a state)
  = (if writesSession a then resetSimulation state
     else dispatch a (resetSimulation state)) /\
  resetSimulation (resetSimulation state) = resetSimulation state /\
  resetTimer (resetSimulation state) = resetSimulation state.
Proof.
  split; [|split; reflexivity].
  destruct a; reflexivity.
Qed.

(** *** The timer among the other actions *)

(** X7. Only the timer actions touch the timer: incrementTimer advances
    it, resetTimer and resetSimulation set it to zero, and every other action
    leaves it as it is.  Apart from the two resets, no action makes the
    elapsed seconds smaller or advances them by more than one. *)
Theorem timer_changes (a : Action) (state : AppState) :
  timer (dispatch a state)
  = match a with
    | IncrementTimer => timer (incrementTimer state)
    | ResetTimer | ResetSimulation => initialTimer
    | _ => timer state
    end /\
  (resetsTimer a = false ->
   totalSeconds (timer state) <= totalSeconds (timer (dispatch a state)) /\
   totalSeconds (timer (dispatch a state)) <= totalSeconds (timer state) + 1).
Proof.
  split; [destruct a; reflexivity|].
  intros Ha. destruct a; simpl in *; try discriminate; lia.
Qed.

Lemma timer_changes_witness :
  resetsTimer (UpdateFieldStatus F_ebitda TBD) = false /\
  totalSeconds (timer initialState)
  <= totalSeconds (timer (dispatch (UpdateFieldStatus F_ebitda TBD)
                            initialState)).
Proof.
  split; [reflexivity|].
  exact (proj1 (proj2 (timer_changes (UpdateFieldStatus F_ebitda TBD)
                         initialState) eq_refl)).
Defined.

(** X8. A tick of the timer commutes with every action but the two
    resets: the state is the same whether incrementTimer runs before or
    after the action. *)
Theorem incrementTimer_commutes (a : Action) (state : AppState) :
  resetsTimer a = false ->
  dispatch a (incrementTimer state) = incrementTimer (dispatch a state).
Proof. intros Ha. destruct a; try discriminate Ha; reflexivity. Qed.

Lemma incrementTimer_commutes_witness :
  resetsTimer (UpdateSimulationField F_ebitda (VStr "25")) = false /\
  dispatch (UpdateSimulationField F_ebitda (VStr "25"))
    (incrementTimer initialState)
  = incrementTimer
      (dispatch (UpdateSimulationField F_ebitda (VStr "25")) initialState).
Proof.
  split; [reflexivity|].
  exact (incrementTimer_commutes (UpdateSimulationField F_ebitda (VStr "25"))
           initialState eq_refl).
Defined.

(** *** What is persisted and what a restart keeps *)

(** X9. The persisted part of the state, the guidance flag and the user,
    changes only under toggleFirstTimeGuidance, setUserRole and setUserName:
    every other action leaves partialize(state), and so the record written
    to storage, unchanged.  After each of the three the persisted part is
    the old one with the flag flipped, the role replaced, or the name
    replaced. *)
Theorem persisted_changes (a : Action) (state : AppState)
    (storage : gmap string json) :
  (writesPersisted a = false ->
   partialize (dispatch a state) = partialize state /\
   save (partialize (dispatch a state)) storage
   = save (partialize state) storage) /\
  partialize (toggleFirstTimeGuidance state)
  = {| persistedGuidance := negb (isFirstTimeGuidanceOpen state);
       persistedUser := user state |} /\
  (forall r : Role,
     partialize (setUserRole r state)
     = {| persistedGuidance := isFirstTimeGuidanceOpen state;
          persistedUser := {| name := name (user state); role := r |} |}) /\
  (forall n : string,
     partialize (setUserName n state)
     = {| persistedGuidance := isFirstTimeGuidanceOpen state;
          persistedUser := {| name := n; role := role (user state) |} |}).
Proof.
  split; [|repeat split].
  intros Ha.
  assert (H : partialize (dispatch a state) = partialize state)
    by (destruct a; try discriminate Ha; reflexivity).
  split; [exact H | now rewrite H].
Qed.

Lemma persisted_changes_witness :
  writesPersisted IncrementTimer = false /\
  partialize (dispatch IncrementTimer initialState) = partialize initialState.
Proof.
  split; [reflexivity|].
  exact (proj1 (proj1 (persisted_changes IncrementTimer initialState ∅) eq_refl)).
Defined.

(** X10. Restarting from what was saved keeps the user and the guidance
    flag and nothing else: the inputs, the statuses, the valuation and the
    timer are the initial ones and both modals are closed.  A second restart
    gives the same state, and with an empty storage the store starts in the
    initial state. *)
Theorem restart_keeps_persisted (state : AppState) (storage : gmap string json) :
  let state' := hydrate (save (partialize state) storage) in
  user state' = user state /\
  isFirstTimeGuidanceOpen state' = isFirstTimeGuidanceOpen state /\
  simulation state' = initialSimulationData /\
  fieldStatus state' = initialFieldStatus /\
  valuation state' = calculateValuation initialSimulationData /\
  timer state' = initialTimer /\
  isVideoModalOpen state' = false /\
  isTextModalOpen state' = false /\
  hydrate (save (partialize state') storage) = state' /\
  hydrate ∅ = initialState.
Proof.
  unfold hydrate. rewrite load_save. simpl.
  repeat (split; [reflexivity|]). split; [|reflexivity].
  now rewrite load_save.
Qed.

(** *** The interval of [useTimer] and the clock text *)

Lemma setTimer_setTimer (t t' : TimerData) (state : AppState) :
  setTimer t' (setTimer t state) = setTimer t' state.
Proof. reflexivity. Qed.

Lemma intervalTicks_frame (n : nat) (state : AppState) :
  intervalTicks n state = setTimer (timer (intervalTicks n state)) state.
Proof.
  unfold intervalTicks. induction n as [|n IH].
  - now destruct state.
  - rewrite Nat.iter_succ.
    set (x := Nat.iter n incrementTimer state) in *.
    transitivity (setTimer (timer (incrementTimer x)) x); [reflexivity|].
    generalize (timer (incrementTimer x)). intros t.
    rewrite IH. reflexivity.
Qed.

(** X11. After n ticks of the interval of useTimer the elapsed seconds
    have grown by exactly n, the text of the clock is formatTime of that
    total, and only the timer has changed.  After at least one tick, hours,
    minutes and seconds are the breakdown of the total; from a reachable
    state the timer stays consistent. *)
Theorem intervalTicks_clock (n : nat) (state : AppState) :
  let total := totalSeconds (timer state) + Z.of_nat n in
  totalSeconds (timer (intervalTicks n state)) = total /\
  formattedTime (intervalTicks n state) = formatTime total /\
  intervalTicks n state = setTimer (timer (intervalTicks n state)) state /\
  ((0 < n)%nat ->
   timer (intervalTicks n state)
   = {| hours := total / 3600; minutes := Z.rem total 3600 / 60;
        seconds := Z.rem total 60; totalSeconds := total |}) /\
  (reachable state -> timerConsistent (timer (intervalTicks n state))).
Proof.
  intros total. unfold formattedTime, intervalTicks.
  rewrite totalSeconds_iter. fold total.
  split; [reflexivity|]. split; [reflexivity|].
  split; [apply intervalTicks_frame|]. split.
  - intros Hn. destruct n as [|n]; [lia|].
    rewrite Nat.iter_succ, timer_incrementTimer, totalSeconds_iter.
    cbv zeta. subst total.
    replace (totalSeconds (timer state) + Z.of_nat n + 1)
      with (totalSeconds (timer state) + Z.of_nat (S n)) by lia.
    reflexivity.
  - intros Hr. apply inv_timer, reachable_invariant.
    clear total. induction n as [|n IH]; [exact Hr|].
    rewrite Nat.iter_succ. exact (reachable_step IncrementTimer _ IH).
Qed.

Lemma intervalTicks_clock_witness :
  (0 < 90)%nat /\
  timer (intervalTicks 90 initialState)
  = {| hours := 0; minutes := 1; seconds := 30; totalSeconds := 90 |} /\
  reachable initialState /\
  timerConsistent (timer (intervalTicks 90 initialState)).
Proof.
  assert (Hn : (0 < 90)%nat) by lia.
  assert (Hr : reachable initialState) by exact (reachable_start ∅).
  pose proof (intervalTicks_clock 90 initialState) as H. cbv zeta in H.
  destruct H as (_ & _ & _ & H4 & H5).
  split; [exact Hn|]. split; [exact (H4 Hn)|]. split; [exact Hr|].
  exact (H5 Hr).
Defined.

(** A number below 100 is padded to exactly two digits. *)
Lemma pad_twoDigits (v : Z) :
  0 <= v < 100 -> JS.padStart0 (JS.intToString v) 2 = twoDigits v.
Proof.
  intros Hv.
  assert (Hall : forallb (fun k => String.eqb
                            (JS.padStart0 (JS.intToString (Z.of_nat k)) 2)
                            (twoDigits (Z.of_nat k))) (seq 0 100) = true)
    by (vm_compute; reflexivity).
  rewrite forallb_forall in Hall.
  specialize (Hall (Z.to_nat v)). rewrite Z2Nat.id in Hall by lia.
  apply String.eqb_eq, Hall, in_seq. lia.
Qed.

Lemma digitChar_inj (a b : Z) :
  0 <= a < 10 -> 0 <= b < 10 -> digitChar a = digitChar b -> a = b.
Proof.
  unfold digitChar. intros Ha Hb H.
  apply (f_equal N_of_ascii) in H.
  rewrite !N_ascii_embedding in H by lia. lia.
Qed.

Lemma twoDigits_inj (a b : Z) :
  0 <= a < 100 -> 0 <= b < 100 -> twoDigits a = twoDigits b -> a = b.
Proof.
  unfold twoDigits. intros Ha Hb H. injection H as H1 H2.
  apply digitChar_inj in H1;
    [|split; [apply Z.div_pos | apply Z.div_lt_upper_bound]; lia
     |split; [apply Z.div_pos | apply Z.div_lt_upper_bound]; lia].
  apply digitChar_inj in H2;
    [|apply Z.mod_pos_bound; lia | apply Z.mod_pos_bound; lia].
  rewrite (Z.div_mod a 10), (Z.div_mod b 10) by lia. lia.
Qed.

Lemma twoDigits_app_inj (a b : Z) (r r' : string) :
  twoDigits a +:+ r = twoDigits b +:+ r' ->
  twoDigits a = twoDigits b /\ r = r'.
Proof.
  unfold twoDigits. intros H.
  change (String (digitChar (a / 10)) (String (digitChar (a mod 10)) r)
          = String (digitChar (b / 10)) (String (digitChar (b mod 10)) r'))
    in H.
  injection H as H1 H2 H3. now rewrite H1, H2.
Qed.

Lemma colon_app_inj (r r' : string) : ":" +:+ r = ":" +:+ r' -> r = r'.
Proof.
  intros H. change (String ":" r = String ":" r') in H. now injection H.
Qed.

(** X12. For 0 <= n < 360000 seconds, that is below 100 hours,
    formatTime(n) is HH:MM:SS with two digits each for the hours, minutes
    and seconds of n; it has 8 characters and determines n: two different
    totals in that range give different texts. *)
Theorem formatTime_clock (n : Z) :
  0 <= n < 360000 ->
  formatTime n
  = twoDigits (n / 3600) +:+ ":" +:+ twoDigits (n mod 3600 / 60) +:+ ":"
    +:+ twoDigits (n mod 60) /\
  String.length (formatTime n) = 8%nat /\
  (forall n' : Z, 0 <= n' < 360000 -> formatTime n' = formatTime n -> n' = n).
Proof.
  assert (Hform : forall k, 0 <= k < 360000 ->
            formatTime k
            = twoDigits (k / 3600) +:+ ":" +:+ twoDigits (k mod 3600 / 60)
              +:+ ":" +:+ twoDigits (k mod 60)).
  { intros k Hk. unfold formatTime. rewrite !Z.rem_mod_nonneg by lia.
    pose proof (Z.mod_pos_bound k 60 ltac:(lia)).
    pose proof (Z.mod_pos_bound k 3600 ltac:(lia)).
    assert (0 <= k mod 3600 / 60 < 60)
      by (split; [apply Z.div_pos | apply Z.div_lt_upper_bound]; lia).
    assert (0 <= k / 3600 < 100)
      by (split; [apply Z.div_pos | apply Z.div_lt_upper_bound]; lia).
    rewrite !pad_twoDigits by lia. reflexivity. }
  assert (Hparts : forall k, 0 <= k < 360000 ->
            0 <= k / 3600 < 100 /\ 0 <= k mod 3600 / 60 < 100 /\
            0 <= k mod 60 < 100 /\
            k = k / 3600 * 3600 + k mod 3600 / 60 * 60 + k mod 60).
  { intros k Hk.
    pose proof (breakdown_consistent k ltac:(lia)) as Hb.
    unfold timerConsistent in Hb. simpl in Hb.
    rewrite !Z.rem_mod_nonneg in Hb by lia.
    assert (k / 3600 < 100) by (apply Z.div_lt_upper_bound; lia). lia. }
  intros Hn. split; [now apply Hform|]. split.
  - rewrite (Hform n Hn). reflexivity.
  - intros n' Hn' Heq. rewrite (Hform n Hn), (Hform n' Hn') in Heq.
    destruct (Hparts n Hn) as (Hh & Hm & Hs & Hsum).
    destruct (Hparts n' Hn') as (Hh' & Hm' & Hs' & Hsum').
    apply twoDigits_app_inj in Heq as [Eh Heq].
    apply colon_app_inj, twoDigits_app_inj in Heq as [Em Heq].
    apply colon_app_inj in Heq.
    apply twoDigits_inj in Eh; try assumption.
    apply twoDigits_inj in Em; try assumption.
    apply twoDigits_inj in Heq; try assumption. lia.
Qed.

Lemma formatTime_clock_witness :
  0 <= 3661 < 360000 /\ formatTime 3661 = "01:01:01" /\
  String.length (formatTime 3661) = 8%nat.
Proof.
  assert (H : 0 <= 3661 < 360000) by lia.
  split; [exact H|].
  destruct (formatTime_clock 3661 H) as (H1 & H2 & _).
  split; [exact H1 | exact H2].
Defined.

(** *** Writing one input *)

(** X13. updateSimulationField(field, value) leaves every other input,
    the review statuses, the timer, the user and the visibility flags as
    they are; a text field whose current value is a string takes the new
    value as it is given. *)
Theorem updateSimulationField_frame (field : SimulationField) (v : value)
    (state : AppState) :
  let state' := updateSimulationField field v state in
  (forall g : SimulationField,
     g <> field ->
     getField g (simulation state') = getField g (simulation state)) /\
  (numericField field = false ->
   forall old : string,
     getField field (simulation state) = VStr old ->
     getField field (simulation state') = v) /\
  fieldStatus state' = fieldStatus state /\
  timer state' = timer state /\
  user state' = user state /\
  isFirstTimeGuidanceOpen state' = isFirstTimeGuidanceOpen state /\
  isVideoModalOpen state' = isVideoModalOpen state /\
  isTextModalOpen state' = isTextModalOpen state.
Proof.
  simpl. split; [|split; [|repeat split]].
  - intros g Hg. destruct field, g; try reflexivity; congruence.
  - intros Hn old Hold.
    destruct field; try discriminate Hn; simpl in *; now rewrite Hold.
Qed.

Lemma updateSimulationField_frame_witness :
  numericField F_companyName = false /\
  getField F_companyName (simulation initialState) = VStr "ABC Corp." /\
  getField F_companyName
    (simulation (updateSimulationField F_companyName (VStr "12 Monkeys Ltd")
                   initialState)) = VStr "12 Monkeys Ltd" /\
  F_ebitda <> F_companyName /\
  getField F_ebitda
    (simulation (updateSimulationField F_companyName (VStr "12 Monkeys Ltd")
                   initialState)) = getField F_ebitda (simulation initialState).
Proof.
  assert (Hne : F_ebitda <> F_companyName) by discriminate.
  pose proof (updateSimulationField_frame F_companyName (VStr "12 Monkeys Ltd")
                initialState) as H.
  cbv zeta in H. destruct H as (H1 & H2 & _).
  split; [reflexivity|]. split; [reflexivity|].
  split; [exact (H2 eq_refl "ABC Corp." eq_refl)|].
  split; [exact Hne | exact (H1 F_ebitda Hne)].
Defined.

(** The parse of a number stored by the fallback chain is the number. *)
Lemma logicalOr_idempotent (x y : float) :
  JS.logicalOr (JS.logicalOr x y) y = JS.logicalOr x y.
Proof.
  unfold JS.logicalOr. destruct (JS.truthy x) eqn:Hx; [now rewrite Hx|].
  now destruct (JS.truthy y).
Qed.

Lemma zero_is_falsy : JS.truthy 0%float = false.
Proof. reflexivity. Qed.

(** What the chain yields: the parse when it is truthy, else the previous
    value when that is truthy, else 0. *)
Lemma processNumeric_cases (v : value) (previous : float) :
  processNumeric v previous
  = if JS.truthy (parseFloatString v) then parseFloatString v
    else if JS.truthy previous then previous else 0%float.
Proof.
  destruct (JS.truthy (parseFloatString v)) eqn:Hv.
  - now apply processNumeric_truthy.
  - rewrite (processNumeric_falsy _ _ Hv). reflexivity.
Qed.

Lemma processNumeric_idempotent (v : value) (previous : float) :
  processNumeric v (processNumeric v previous) = processNumeric v previous.
Proof.
  rewrite (processNumeric_cases v (processNumeric v previous)).
  rewrite (processNumeric_cases v previous).
  destruct (JS.truthy (parseFloatString v)) eqn:Hv; [reflexivity|].
  destruct (JS.truthy previous) eqn:Hp; [now rewrite Hp|].
  now rewrite zero_is_falsy.
Qed.

Lemma processNumeric_overwrite (v1 v2 : value) (previous : float) :
  JS.truthy (parseFloatString v2) = true ->
  processNumeric v2 (processNumeric v1 previous) = processNumeric v2 previous.
Proof. intros H. now rewrite !(processNumeric_truthy _ _ H). Qed.

(** X14. On a numeric field, making the same update twice gives the same
    state as making it once; an update whose value parses to a number that
    is neither NaN nor zero overwrites any earlier update of that field, and
    that number is what the field then holds. *)
Theorem updateSimulationField_numeric_compose (field : SimulationField)
    (v v' : value) (state : AppState) :
  numericField field = true ->
  updateSimulationField field v (updateSimulationField field v state)
  = updateSimulationField field v state /\
  (JS.truthy (parseFloatString v') = true ->
   updateSimulationField field v' (updateSimulationField field v state)
   = updateSimulationField field v' state /\
   getField field (simulation (updateSimulationField field v' state))
   = VNum (parseFloatString v')).
Proof.
  intros Hn. unfold updateSimulationField. simpl. split.
  - destruct field; try discriminate Hn; simpl;
      now rewrite processNumeric_idempotent.
  - intros Hv. split.
    + destruct field; try discriminate Hn; simpl;
        now rewrite (processNumeric_overwrite _ _ _ Hv).
    + destruct field; try discriminate Hn; simpl;
        now rewrite (processNumeric_truthy _ _ Hv).
Qed.

Lemma updateSimulationField_numeric_compose_witness :
  numericField F_ebitda = true /\
  JS.truthy (parseFloatString (VNum 4)) = true /\
  updateSimulationField F_ebitda (VNum 4)
    (updateSimulationField F_ebitda (VStr "abc") initialState)
  = updateSimulationField F_ebitda (VNum 4) initialState /\
  getField F_ebitda
    (simulation (updateSimulationField F_ebitda (VNum 4) initialState))
  = VNum 4.
Proof.
  split; [reflexivity|]. split; [reflexivity|].
  exact (proj2 (updateSimulationField_numeric_compose F_ebitda (VStr "abc")
                  (VNum 4) initialState eq_refl) eq_refl).
Defined.

(** X15. In a reachable state, changing the interest rate, the company
    name or the description leaves the valuation as it is. *)
Theorem valuation_ignores_other_inputs (field : SimulationField) (v : value)
    (state : AppState) :
  reachable state ->
  field = F_interestRate \/ field = F_companyName \/ field = F_description ->
  valuation (updateSimulationField field v state) = valuation state.
Proof.
  intros Hr Hf. cbn [updateSimulationField valuation].
  rewrite (inv_valuation _ (reachable_invariant _ Hr)).
  destruct Hf as [ -> | [ -> | -> ] ]; reflexivity.
Qed.

Lemma valuation_ignores_other_inputs_witness :
  reachable initialState /\
  valuation (updateSimulationField F_interestRate (VStr "35") initialState)
  = valuation initialState.
Proof.
  assert (Hr : reachable initialState) by exact (reachable_start ∅).
  split; [exact Hr|].
  exact (valuation_ignores_other_inputs F_interestRate (VStr "35")
           initialState Hr (or_introl eq_refl)).
Defined.

(** X16. A numeric field never holds NaN after an update: what is stored
    is a number that is neither NaN nor zero, or the fallback 0 when the
    parsed and the previous value are both falsy.  In a reachable state
    every numeric field holds a number that is neither NaN nor zero. *)
Theorem numeric_fields_never_nan (field : SimulationField) (v : value)
    (state : AppState) :
  numericField field = true ->
  (exists x : float,
     getField field (simulation (updateSimulationField field v state)) = VNum x /\
     (JS.truthy x = true \/ x = 0%float) /\
     is_nan x = false) /\
  (reachable state ->
   exists x : float,
     getField field (simulation state) = VNum x /\ JS.truthy x = true /\
     is_nan x = false /\ is_zero x = false).
Proof.
  intros Hn. destruct (getField_numeric field (simulation state) Hn) as [p Hp].
  split.
  - exists (processNumeric v p). cbn [updateSimulationField simulation].
    rewrite (getField_newSimulation_numeric field v _ p Hn Hp).
    split; [reflexivity|].
    assert (Hc : JS.truthy (processNumeric v p) = true
                 \/ processNumeric v p = 0%float).
    { rewrite processNumeric_cases.
      destruct (JS.truthy (parseFloatString v)) eqn:Hv; [now left|].
      destruct (JS.truthy p) eqn:Ht; [now left | now right]. }
    split; [exact Hc|].
    destruct Hc as [Hc | ->]; [now apply truthy_not_nan | reflexivity].
  - intros Hr. exists p.
    pose proof (reachable_numeric_truthy _ _ _ Hr Hn Hp) as Ht.
    split; [exact Hp|]. split; [exact Ht|].
    split; [now apply truthy_not_nan | now apply truthy_not_zero].
Qed.

Lemma numeric_fields_never_nan_witness :
  numericField F_factorScore = true /\
  exists x : float,
    getField F_factorScore
      (simulation (updateSimulationField F_factorScore (VNum nan) initialState))
    = VNum x /\ (JS.truthy x = true \/ x = 0%float) /\ is_nan x = false.
Proof.
  split; [reflexivity|].
  exact (proj1 (numeric_fields_never_nan F_factorScore (VNum nan) initialState
                  eq_refl)).
Defined.

(** *** The pages and the rows of the input form *)

(** X17. Mounting a page sets the role the form is gated by: after
    Team2Page has mounted, value changes are ignored and status toggles go
    to updateFieldStatus; after Team1Page has mounted, status toggles are
    ignored and value changes go to updateSimulationField.  The page mounted
    last decides, the name of the user is kept, and the role is part of what
    is persisted and restored. *)
Theorem page_mount_sets_gate (state : AppState) :
  (forall (f : SimulationField) (v : value),
     handleValueChange f v (Team2Page_mount state) = Team2Page_mount state) /\
  (forall (f : SimulationField) (s : FieldToggleStatus),
     handleStatusToggle f s (Team2Page_mount state)
     = updateFieldStatus f s (Team2Page_mount state)) /\
  (forall (f : SimulationField) (s : FieldToggleStatus),
     handleStatusToggle f s (Team1Page_mount state) = Team1Page_mount state) /\
  (forall (f : SimulationField) (v : value),
     handleValueChange f v (Team1Page_mount state)
     = updateSimulationField f v (Team1Page_mount state)) /\
  Team1Page_mount (Team2Page_mount state) = Team1Page_mount state /\
  Team2Page_mount (Team1Page_mount state) = Team2Page_mount state /\
  Team1Page_mount state = setUser {| name := name (user state); role := team1 |}
                            state /\
  role (persistedUser (partialize (Team2Page_mount state))) = team2 /\
  (forall storage : gmap string json,
     role (user (hydrate (save (partialize (Team2Page_mount state)) storage)))
     = team2).
Proof.
  repeat split; try reflexivity.
  intros storage. unfold hydrate. now rewrite load_save.
Qed.

Lemma reachable_status_defined (state : AppState) (f : SimulationField) :
  reachable state ->
  fieldStatus state !! fieldKey f = Some TBD \/
  fieldStatus state !! fieldKey f = Some OK.
Proof.
  intros Hr. pose proof (inv_status _ (reachable_invariant _ Hr)) as Hd.
  unfold statusKeysExact in Hd.
  assert (Hin : fieldKey f ∈ dom (fieldStatus state)).
  { rewrite Hd. apply elem_of_list_to_set, fieldKey_in_keys. }
  apply elem_of_dom in Hin as [[|] Hs]; auto.
Qed.

(** X18. In a reachable state each row of the form shows exactly one of
    its two status buttons as active, and exactly one of its two controls,
    the input and the pair of buttons, is disabled.  The handler of the
    disabled control changes nothing; when the buttons are enabled, a toggle
    makes the pressed button the active one of its row and leaves the other
    rows as they are. *)
Theorem row_controls (field : SimulationField) (state : AppState) :
  reachable state ->
  xorb (tbdActive field state) (okActive field state) = true /\
  xorb (inputDisabled state) (toggleDisabled state) = true /\
  (forall v : value,
     inputDisabled state = true -> handleValueChange field v state = state) /\
  (forall s : FieldToggleStatus,
     toggleDisabled state = true -> handleStatusToggle field s state = state) /\
  (forall s : FieldToggleStatus,
     toggleDisabled state = false ->
     tbdActive field (handleStatusToggle field s state)
     = match s with TBD => true | OK => false end /\
     okActive field (handleStatusToggle field s state)
     = match s with TBD => false | OK => true end /\
     forall g : SimulationField,
       g <> field ->
       tbdActive g (handleStatusToggle field s state) = tbdActive g state /\
       okActive g (handleStatusToggle field s state) = okActive g state).
Proof.
  intros Hr.
  destruct (reachable_status_defined state field Hr) as [Hs|Hs].
  all: unfold tbdActive, okActive, statusOf, inputDisabled, toggleDisabled,
         handleValueChange, handleStatusToggle, isTeam1, isTeam2.
  all: rewrite Hs; split; [reflexivity|].
  all: destruct (role (user state)); simpl.
  all: split; [reflexivity|].
  all: split; [intros v Hd; first [reflexivity | discriminate Hd]|].
  all: split; [intros s Hd; first [reflexivity | discriminate Hd]|].
  all: intros s Hd; try discriminate Hd.
  all: rewrite lookup_insert_eq.
  all: split; [now destruct s|]; split; [now destruct s|].
  all: intros g Hg; rewrite lookup_insert_ne;
         [split; reflexivity | intros Hk; apply Hg; symmetry;
                               now apply fieldKey_inj].
Qed.

Lemma row_controls_witness :
  let state := Team2Page_mount initialState in
  reachable state /\
  xorb (tbdActive F_ebitda state) (okActive F_ebitda state) = true /\
  xorb (inputDisabled state) (toggleDisabled state) = true /\
  handleValueChange F_ebitda (VStr "25") state = state /\
  okActive F_ebitda (handleStatusToggle F_ebitda OK state) = true.
Proof.
  intros state.
  assert (Hr : reachable state)
    by exact (reachable_step (SetUserRole team2) _ (reachable_start ∅)).
  pose proof (row_controls F_ebitda state Hr) as (H1 & H2 & H3 & _ & H5).
  split; [exact Hr|]. split; [exact H1|]. split; [exact H2|].
  split; [exact (H3 (VStr "25") eq_refl)|].
  exact (proj1 (proj2 (H5 OK eq_refl))).
Defined.

(** *** Text that is no number *)

Lemma parseFloat_no_numeral (s : string) :
  startsNoNumeral s = true -> JS.parseFloat s = nan.
Proof.
  unfold startsNoNumeral, JS.parseFloat.
  destruct (JS.trimStart s) as [|c t]; [reflexivity|].
  intros H.
  destruct c as [[] [] [] [] [] [] [] []];
    try (vm_compute in H; discriminate H); vm_compute; reflexivity.
Qed.

(** A falsy parse leaves the whole state of a reachable store as it was. *)
Lemma falsy_parse_noop (state : AppState) (f : SimulationField) (v : value) :
  reachable state ->
  numericField f = true ->
  JS.truthy (parseFloatString v) = false ->
  updateSimulationField f v state = state.
Proof.
  intros Hr Hn Hv.
  pose proof (reachable_invariant _ Hr) as [Hval (He & Hi & Hm & Hf) _ _].
  assert (Hsim : newSimulation f v (simulation state) = simulation state).
  { destruct (simulation state) as [e i m fs cn d]. simpl in *.
    destruct f; try discriminate Hn; simpl;
      rewrite (processNumeric_falsy _ _ Hv), logicalOr_truthy_l by assumption;
      reflexivity. }
  unfold updateSimulationField. rewrite Hsim, <- Hval. now destruct state.
Qed.

(** X19. Text that does not start with a numeral (after the leading
    white space it is empty, or its first character is not a digit, a sign,
    a point or the I of Infinity) parses to NaN; typing it into a numeric
    field of a reachable state leaves the whole state unchanged, through the
    store action and through the handler of the form alike. *)
Theorem text_without_numeral_ignored (state : AppState) (f : SimulationField)
    (s : string) :
  reachable state ->
  numericField f = true ->
  startsNoNumeral s = true ->
  is_nan (JS.parseFloat s) = true /\
  updateSimulationField f (VStr s) state = state /\
  handleValueChange f (VStr s) state = state.
Proof.
  intros Hr Hn Hs.
  assert (Hnan : is_nan (JS.parseFloat s) = true)
    by (rewrite (parseFloat_no_numeral s Hs); reflexivity).
  assert (Hu : updateSimulationField f (VStr s) state = state)
    by (apply falsy_parse_noop; [assumption | assumption | now apply nan_falsy]).
  split; [exact Hnan|]. split; [exact Hu|].
  unfold handleValueChange. destruct (negb (isTeam1 state)); [reflexivity|exact Hu].
Qed.

Lemma text_without_numeral_ignored_witness :
  reachable initialState /\ numericField F_ebitda = true /\
  startsNoNumeral EmptyString = true /\
  updateSimulationField F_ebitda (VStr EmptyString) initialState = initialState /\
  startsNoNumeral "  approx. 12" = true /\
  updateSimulationField F_ebitda (VStr "  approx. 12") initialState
  = initialState.
Proof.
  assert (Hr : reachable initialState) by exact (reachable_start ∅).
  split; [exact Hr|]. split; [reflexivity|]. split; [reflexivity|].
  split; [exact (proj1 (proj2 (text_without_numeral_ignored initialState
                                 F_ebitda EmptyString Hr eq_refl eq_refl)))|].
  split; [reflexivity|].
  exact (proj1 (proj2 (text_without_numeral_ignored initialState F_ebitda
                         "  approx. 12" Hr eq_refl eq_refl))).
Defined.

(** *** Valuations of positive finite inputs *)

(** A number strictly between 0 and [Infinity] is finite and positive. *)
Lemma positive_finite_spec (x : float) :
  (0 <? x)%float = true -> (x <? infinity)%float = true ->
  exists m e, Prim2SF x = S754_finite false m e.
Proof.
  rewrite !ltb_spec.
  replace (Prim2SF 0%float) with (S754_zero false) by reflexivity.
  replace (Prim2SF infinity) with (S754_infinity false) by reflexivity.
  unfold SFltb, SFcompare.
  destruct (Prim2SF x) as [s|s| |s m e]; try discriminate.
  - destruct s; discriminate.
  - destruct s; [discriminate|]. eauto.
Qed.

(** The product of a non-negative number that is not [NaN] and a positive
    finite number is non-negative. *)
Lemma mul_positive_finite_nonneg (x y : float) (m : positive) (e : Z) :
  (0 <=? x)%float = true ->
  Prim2SF y = S754_finite false m e ->
  (0 <=? x * y)%float = true.
Proof.
  rewrite !leb_zero_spec, mul_spec. intros Hx Hy. rewrite Hy. unfold SF64mul.
  destruct Hx as [[s Hs]|Hs].
  - left. rewrite Hs. simpl. eauto.
  - right. rewrite SFmul_finite_sign, Hs. reflexivity.
Qed.

Lemma positive_finite_nonneg (x : float) (m : positive) (e : Z) :
  Prim2SF x = S754_finite false m e -> (0 <=? x)%float = true.
Proof. intros H. apply leb_zero_spec. right. now rewrite H. Qed.

(** X20. When ebitda, multiple and factor score are positive and finite,
    the amount is not negative (underflow may make it 0 and overflow
    Infinity, but it is never NaN) and the percentage lies between 0 and
    100. *)
Theorem positive_inputs_percentage_in_range (data : SimulationData) :
  (0 <? ebitda data)%float = true -> (ebitda data <? infinity)%float = true ->
  (0 <? multiple data)%float = true -> (multiple data <? infinity)%float = true ->
  (0 <? factorScore data)%float = true ->
  (factorScore data <? infinity)%float = true ->
  let v := calculateValuation data in
  (0 <=? amount v)%float = true /\
  (0 <=? percentage v)%float = true /\
  (percentage v <=? 100)%float = true.
Proof.
  intros He1 He2 Hm1 Hm2 Hf1 Hf2 v.
  destruct (positive_finite_spec _ He1 He2) as (me & ee & He).
  destruct (positive_finite_spec _ Hm1 Hm2) as (mm & em & Hm).
  destruct (positive_finite_spec _ Hf1 Hf2) as (mf & ef & Hf).
  assert (Ha : (0 <=? amount v)%float = true).
  { subst v. cbn [calculateValuation amount].
    apply (mul_positive_finite_nonneg _ _ mf ef); [|exact Hf].
    apply (mul_positive_finite_nonneg _ _ mm em); [|exact Hm].
    exact (positive_finite_nonneg _ _ _ He). }
  split; [exact Ha|]. subst v. cbn [calculateValuation percentage amount] in *.
  split.
  - apply Math_min_100_nonneg. now apply scaled_nonneg.
  - apply Math_min_100_le, scaled_not_nan. now apply leb_zero_not_nan.
Qed.

Lemma positive_inputs_percentage_in_range_witness :
  let data := {| ebitda := 1000000; interestRate := 20; multiple := 500;
                 factorScore := 5; companyName := VStr "ABC Corp.";
                 description := VStr "A company" |} in
  (0 <=? amount (calculateValuation data))%float = true /\
  (0 <=? percentage (calculateValuation data))%float = true /\
  (percentage (calculateValuation data) <=? 100)%float = true.
Proof.
  intros data.
  exact (positive_inputs_percentage_in_range data eq_refl eq_refl eq_refl
           eq_refl eq_refl eq_refl).
Defined.

(** *** The percentage at the ceiling *)

Lemma Zdigits2_ge_pow (m : Z) : 0 < m -> 2 ^ (Zdigits2 m - 1) <= m.
Proof.
  intros Hm. pose proof (Zdigits2_nonneg m) as Hd.
  destruct (Z.le_gt_cases (2 ^ (Zdigits2 m - 1)) m) as [Hle|Hlt]; [exact Hle|].
  destruct (Z.eq_dec (Zdigits2 m) 0) as [H0|H0].
  - rewrite H0 in Hlt. simpl in Hlt.
    destruct m; simpl in *; try lia.
  - apply (Zdigits2_le_iff m (Zdigits2 m - 1)) in Hlt; lia.
Qed.

Lemma atLeast_mono (C m m' e : Z) : m <= m' -> atLeast C m e -> atLeast C m' e.
Proof.
  unfold atLeast. intros Hm H.
  assert (0 < 2 ^ Z.max 0 e) by (apply Z.pow_pos_nonneg; lia). nia.
Qed.

(** Shifting to the canonical exponent keeps a magnitude of at least [C],
    for [C] up to [2^53]. *)
Lemma shr_fexp_atLeast (C m e : Z) (l : location) :
  0 < C <= 2 ^ 53 -> 0 < m -> atLeast C m e ->
  let r := shr_fexp prec emax m e l in
  atLeast C (shr_m (fst r)) (snd r).
Proof.
  intros HC Hm Ha r. subst r. unfold shr_fexp.
  set (d := Zdigits2 m).
  set (n := fexp prec emax (d + e) - e).
  destruct (shr_spec (shr_record_of_loc m l) e n) as [H1 H2].
  { rewrite shr_m_of_loc. lia. }
  rewrite shr_m_of_loc in H1. rewrite H1, H2. clear H1 H2.
  destruct (Z.le_gt_cases n 0) as [Hn|Hn].
  - rewrite Z.max_l by lia. rewrite Z.div_1_r, Z.add_0_r. exact Ha.
  - rewrite Z.max_r by lia.
    pose proof (Zdigits2_ge_pow m Hm) as Hlow. fold d in Hlow.
    assert (Hpn : 0 < 2 ^ n) by (apply Z.pow_pos_nonneg; lia).
    unfold atLeast in *.
    destruct (Z.le_gt_cases (e + n) 0) as [He|He].
    + rewrite (Z.max_r 0 (- (e + n))), (Z.max_l 0 (e + n)) by lia.
      rewrite (Z.max_r 0 (- e)), (Z.max_l 0 e) in Ha by lia.
      rewrite Z.pow_0_r, Z.mul_1_r in *.
      apply Z.div_le_lower_bound; [assumption|].
      replace (- e) with (n + - (e + n)) in Ha by lia.
      rewrite Z.pow_add_r in Ha by lia. lia.
    + rewrite (Z.max_l 0 (- (e + n))), (Z.max_r 0 (e + n)) by lia.
      rewrite Z.pow_0_r, Z.mul_1_r.
      assert (Hn' : n = d - 53)
        by (subst n; unfold fexp, SpecFloat.emin, prec, emax in *; lia).
      assert (Hq : 2 ^ 52 <= m / 2 ^ n).
      { apply Z.div_le_lower_bound; [assumption|].
        rewrite <- Z.pow_add_r by lia.
        replace (n + 52) with (d - 1) by lia. exact Hlow. }
      assert (2 <= 2 ^ (e + n)).
      { change 2 with (2 ^ 1) at 1. apply Z.pow_le_mono_r; lia. }
      change (2 ^ 53) with (2 ^ 52 * 2) in HC. nia.
Qed.

(** Rounding keeps a magnitude of at least [C]: the result is [Infinity] or
    a finite number of at least [C]. *)
Lemma binary_round_aux_atLeast (C mx ex : Z) (lx : location) :
  0 < C <= 2 ^ 53 -> 0 < mx -> atLeast C mx ex ->
  match binary_round_aux prec emax false mx ex lx with
  | S754_finite s m e => s = false /\ atLeast C (Z.pos m) e
  | S754_infinity s => s = false
  | _ => False
  end.
Proof.
  intros HC Hm Ha. unfold binary_round_aux.
  pose proof (shr_fexp_atLeast C mx ex lx HC Hm Ha) as H1. cbv zeta in H1.
  destruct (shr_fexp prec emax mx ex lx) as [mrs' e']. simpl in H1.
  set (m1 := round_nearest_even (shr_m mrs') (loc_of_shr_record mrs')).
  pose proof (round_nearest_even_bounds (shr_m mrs') (loc_of_shr_record mrs'))
    as Hr. fold m1 in Hr.
  assert (Hpos : forall m e, atLeast C m e -> 0 < m).
  { intros m e H. unfold atLeast in H.
    assert (0 < 2 ^ Z.max 0 (- e)) by (apply Z.pow_pos_nonneg; lia).
    assert (0 < 2 ^ Z.max 0 e) by (apply Z.pow_pos_nonneg; lia). nia. }
  assert (H1' : atLeast C m1 e') by (apply (atLeast_mono C (shr_m mrs')); [lia | exact H1]).
  pose proof (shr_fexp_atLeast C m1 e' loc_Exact HC (Hpos _ _ H1') H1') as H2.
  cbv zeta in H2.
  destruct (shr_fexp prec emax m1 e' loc_Exact) as [mrs'' e'']. simpl in H2.
  pose proof (Hpos _ _ H2) as Hp2.
  destruct (shr_m mrs'') as [|m|m]; [lia | | lia].
  destruct (e'' <=? emax - prec); [split; [reflexivity | exact H2] | reflexivity].
Qed.

(** The order of a positive constant and a valid positive number, read on
    their magnitudes. *)
Lemma SFleb_finite_value (mc : positive) (ec : Z) (ma : positive) (ea : Z) :
  emin <= ec -> Z.pos mc < 2 ^ 53 ->
  valid_binary (S754_finite false ma ea) = true ->
  SFleb (S754_finite false mc ec) (S754_finite false ma ea) = true ->
  ec <= ea /\ Z.pos mc <= Z.pos ma * 2 ^ (ea - ec).
Proof.
  intros Hec Hmc Hv. unfold SFleb, SFcompare. destruct (ec ?= ea) eqn:He.
  - apply Z.compare_eq in He. subst ea. rewrite Pos.compare_cont_spec.
    unfold Pos.switch_Eq.
    destruct (Pos.compare_spec mc ma) as [Hm|Hm|Hm]; try discriminate;
      intros _; (split; [lia|]); rewrite Z.sub_diag, Z.pow_0_r; lia.
  - rewrite Z.compare_lt_iff in He. intros _. split; [lia|].
    unfold valid_binary, bounded, canonical_mantissa in Hv.
    apply andb_true_iff in Hv as [Hv _]. apply Z.eqb_eq in Hv.
    pose proof (Zdigits2_ge_pow (Z.pos ma) ltac:(lia)) as Hlow.
    change (Zdigits2 (Z.pos ma)) with (Z.pos (digits2_pos ma)) in Hlow.
    assert (Hd : Z.pos (digits2_pos ma) = 53)
      by (unfold fexp, SpecFloat.emin, prec, emax in *; lia).
    rewrite Hd in Hlow. change (2 ^ (53 - 1)) with (2 ^ 52) in Hlow.
    assert (2 <= 2 ^ (ea - ec)).
    { change 2 with (2 ^ 1) at 1. apply Z.pow_le_mono_r; lia. }
    change (2 ^ 53) with (2 ^ 52 * 2) in Hmc. nia.
  - discriminate.
Qed.

(** A quotient of at least 1 rounds to a number of at least 1. *)
Lemma SFdiv_atLeast_1 (ma : positive) (ea : Z) (mc : positive) (ec : Z) :
  Z.pos (digits2_pos ma) <= 53 ->
  ec <= ea -> Z.pos mc <= Z.pos ma * 2 ^ (ea - ec) ->
  match SFdiv prec emax (S754_finite false ma ea) (S754_finite false mc ec) with
  | S754_finite s m e => s = false /\ atLeast 1 (Z.pos m) e
  | S754_infinity s => s = false
  | _ => False
  end.
Proof.
  intros Hd1 Hk Hge. cbn [SFdiv xorb].
  assert (Hcore :
    let r := SFdiv_core_binary prec emax (Z.pos ma) ea (Z.pos mc) ec in
    atLeast 1 (fst (fst r)) (snd (fst r))).
  { unfold SFdiv_core_binary.
    change (Zdigits2 (Z.pos ma)) with (Z.pos (digits2_pos ma)).
    change (Zdigits2 (Z.pos mc)) with (Z.pos (digits2_pos mc)).
    set (d1 := Z.pos (digits2_pos ma)) in *.
    set (d2 := Z.pos (digits2_pos mc)) in *.
    set (e' := Z.min (fexp prec emax (d1 + ea - (d2 + ec))) (ea - ec)).
    set (s := ea - ec - e').
    set (m' := match s with
               | 0 => Z.pos ma
               | Z.pos _ => Z.shiftl (Z.pos ma) s
               | Z.neg _ => 0
               end).
    assert (Hs : 0 <= s) by (subst s e'; lia).
    assert (Hm' : m' = Z.pos ma * 2 ^ s).
    { subst m'. destruct s as [|p|p]; [simpl; lia | | lia].
      apply Z.shiftl_mul_pow2. lia. }
    assert (Hq : fst (Z.div_eucl m' (Z.pos mc)) = m' / Z.pos mc)
      by (unfold Z.div; now destruct (Z.div_eucl m' (Z.pos mc))).
    change Z.div_eucl with IntDef.Z.div_eucl in Hq.
    destruct (IntDef.Z.div_eucl m' (Z.pos mc)) as [q r]. simpl in Hq |- *.
    rewrite Hq, Hm'. unfold atLeast. rewrite Z.mul_1_l.
    assert (Hps : 0 < 2 ^ s) by (apply Z.pow_pos_nonneg; lia).
    destruct (Z.le_gt_cases e' 0) as [He|He].
    - rewrite (Z.max_r 0 (- e')), (Z.max_l 0 e') by lia.
      rewrite Z.pow_0_r, Z.mul_1_r.
      apply Z.div_le_lower_bound; [lia|].
      replace s with ((ea - ec) + - e') by (subst s; lia).
      rewrite Z.pow_add_r by lia.
      assert (0 < 2 ^ (- e')) by (apply Z.pow_pos_nonneg; lia). nia.
    - rewrite (Z.max_l 0 (- e')), (Z.max_r 0 e') by lia.
      rewrite Z.pow_0_r.
      assert (Hsd : d2 <= s)
        by (subst s e'; unfold fexp, SpecFloat.emin, prec, emax in *; lia).
      assert (Hmc : Z.pos mc < 2 ^ d2)
        by (apply (Zdigits2_lt_pow (Z.pos mc)); lia).
      assert (2 ^ d2 <= 2 ^ s) by (apply Z.pow_le_mono_r; subst d2; lia).
      assert (1 <= Z.pos ma * 2 ^ s / Z.pos mc)
        by (apply Z.div_le_lower_bound; nia).
      assert (0 < 2 ^ e') by (apply Z.pow_pos_nonneg; lia). nia. }
  cbv zeta in Hcore.
  destruct (SFdiv_core_binary prec emax (Z.pos ma) ea (Z.pos mc) ec)
    as [[mz ez] lz].
  simpl in Hcore. apply binary_round_aux_atLeast; [lia | | exact Hcore].
  unfold atLeast in Hcore.
  assert (0 < 2 ^ Z.max 0 (- ez)) by (apply Z.pow_pos_nonneg; lia).
  assert (0 < 2 ^ Z.max 0 ez) by (apply Z.pow_pos_nonneg; lia). nia.
Qed.

(** A number of at least 1 times the constant [100 = mc * 2^ec] rounds to a
    number of at least 100. *)
Lemma SFmul_atLeast_100 (mq : positive) (eq : Z) (mc : positive) (ec : Z) :
  ec <= 0 -> Z.pos mc = 100 * 2 ^ (- ec) ->
  atLeast 1 (Z.pos mq) eq ->
  match SFmul prec emax (S754_finite false mq eq) (S754_finite false mc ec) with
  | S754_finite s m e => s = false /\ atLeast 100 (Z.pos m) e
  | S754_infinity s => s = false
  | _ => False
  end.
Proof.
  intros Hec Hmc Hq. cbn [SFmul xorb].
  apply binary_round_aux_atLeast; [lia | lia |].
  unfold atLeast in *. rewrite Pos2Z.inj_mul, Hmc.
  set (t := - ec) in *. assert (Ht : 0 <= t) by (subst t; lia).
  assert (Hpt : 0 < 2 ^ t) by (apply Z.pow_pos_nonneg; lia).
  destruct (Z.le_gt_cases 0 (eq + ec)) as [He|He].
  - rewrite (Z.max_l 0 (- (eq + ec))), (Z.max_r 0 (eq + ec)) by lia.
    rewrite Z.pow_0_r.
    assert (0 < 2 ^ (eq + ec)) by (apply Z.pow_pos_nonneg; lia). nia.
  - rewrite (Z.max_r 0 (- (eq + ec))), (Z.max_l 0 (eq + ec)) by lia.
    rewrite Z.pow_0_r, Z.mul_1_r.
    destruct (Z.le_gt_cases eq 0) as [Hq0|Hq0].
    + rewrite (Z.max_r 0 (- eq)), (Z.max_l 0 eq), Z.pow_0_r in Hq by lia.
      replace (- (eq + ec)) with (t + - eq) by (subst t; lia).
      rewrite Z.pow_add_r by lia. nia.
    + assert (2 ^ (- (eq + ec)) <= 2 ^ t)
        by (apply Z.pow_le_mono_r; subst t; lia).
      nia.
Qed.

(** A valid number of at least 100 is not below the constant 100. *)
Lemma atLeast_100_not_below (m : positive) (e : Z) (mc : positive) (ec : Z) :
  ec <= 0 -> Z.pos mc = 100 * 2 ^ (- ec) -> 2 ^ 52 <= Z.pos mc ->
  valid_binary (S754_finite false m e) = true ->
  atLeast 100 (Z.pos m) e ->
  SFltb (S754_finite false m e) (S754_finite false mc ec) = false.
Proof.
  intros Hec Hmc Hlow Hv Ha. apply valid_digits in Hv.
  pose proof (Zdigits2_lt_pow (Z.pos m) ltac:(lia)) as Hm.
  change (Zdigits2 (Z.pos m)) with (Z.pos (digits2_pos m)) in Hm.
  assert (Hm53 : Z.pos m < 2 ^ 53).
  { apply Z.lt_le_trans with (2 ^ Z.pos (digits2_pos m)); [exact Hm|].
    apply Z.pow_le_mono_r; unfold prec in Hv; lia. }
  unfold SFltb, SFcompare. destruct (e ?= ec) eqn:He.
  - apply Z.compare_eq in He. subst e. rewrite Pos.compare_cont_spec.
    unfold Pos.switch_Eq.
    destruct (Pos.compare_spec m mc) as [Hc|Hc|Hc]; try reflexivity.
    exfalso. unfold atLeast in Ha.
    rewrite (Z.max_r 0 (- ec)), (Z.max_l 0 ec), Z.pow_0_r in Ha by lia.
    apply Pos2Z.pos_lt_pos in Hc. lia.
  - exfalso. rewrite Z.compare_lt_iff in He. unfold atLeast in Ha.
    rewrite (Z.max_r 0 (- e)), (Z.max_l 0 e), Z.pow_0_r in Ha by lia.
    replace (- e) with ((- ec) + (ec - e)) in Ha by lia.
    rewrite Z.pow_add_r in Ha by lia.
    assert (2 <= 2 ^ (ec - e)).
    { change 2 with (2 ^ 1) at 1. apply Z.pow_le_mono_r; lia. }
    change (2 ^ 53) with (2 ^ 52 * 2) in Hm53.
    assert (0 < 2 ^ (- ec)) by (apply Z.pow_pos_nonneg; lia). nia.
  - reflexivity.
Qed.

(** A positive number that is not zero has no sign bit. *)
Lemma get_sign_positive (y : float) :
  (Prim2SF y = S754_infinity false
   \/ exists m e, Prim2SF y = S754_finite false m e) ->
  get_sign y = false.
Proof.
  intros Hy. unfold get_sign, is_zero.
  rewrite FloatAxioms.eqb_spec.
  replace (Prim2SF PrimFloat.zero) with (S754_zero false) by reflexivity.
  assert (Hz : SFeqb (Prim2SF y) (S754_zero false) = false)
    by (destruct Hy as [->|(m & e & ->)]; reflexivity).
  rewrite Hz. rewrite ltb_spec.
  replace (Prim2SF PrimFloat.zero) with (S754_zero false) by reflexivity.
  destruct Hy as [->|(m & e & ->)]; reflexivity.
Qed.

(** [Math.min] of 100 and a number that is not below it is 100. *)
Lemma Math_min_100_at_least (y : float) :
  (Prim2SF y = S754_infinity false
   \/ exists m e, Prim2SF y = S754_finite false m e /\
                  SFltb (S754_finite false m e) (Prim2SF 100) = false) ->
  JS.Math_min y 100 = 100%float.
Proof.
  intros Hy. unfold JS.Math_min.
  assert (Hn : is_nan y = false).
  { apply is_nan_false_sign. exists false.
    destruct Hy as [->|(m & e & -> & _)]; reflexivity. }
  assert (Hlt : (y <? 100)%float = false).
  { rewrite ltb_spec. destruct Hy as [->|(m & e & -> & H)]; [|exact H].
    rewrite Prim2SF_100. reflexivity. }
  assert (Hs : get_sign y = false).
  { apply get_sign_positive. destruct Hy as [Hy|(m & e & Hy & _)]; eauto. }
  rewrite Hn, Hlt, Hs. change (is_nan 100) with false. cbn [orb].
  now destruct (100 <? y)%float.
Qed.

(** Scaling an amount of at least the ceiling gives at least 100. *)
Lemma scaled_at_ceiling (a : float) :
  JS.geb a MAX_VALUATION = true ->
  let y := (a / MAX_VALUATION * 100)%float in
  Prim2SF y = S754_infinity false
  \/ exists m e, Prim2SF y = S754_finite false m e /\
                 SFltb (S754_finite false m e) (Prim2SF 100) = false.
Proof.
  intros Ha y. pose proof (Prim2SF_valid y) as Hvy.
  pose proof (Prim2SF_valid a) as Hva.
  unfold JS.geb, MAX_VALUATION in Ha. rewrite leb_spec, Prim2SF_1e9 in Ha.
  subst y. rewrite mul_spec, div_spec in *.
  unfold MAX_VALUATION, SF64mul, SF64div in *.
  rewrite Prim2SF_1e9, Prim2SF_100 in *.
  destruct (SFleb_finite_l _ _ _ Ha) as [Hi|(ma & ea & Hf)].
  - rewrite Hi. left. reflexivity.
  - rewrite Hf in *.
    destruct (SFleb_finite_value 8388608000000000 (-23) ma ea ltac:(apply Z.leb_le; reflexivity)
                ltac:(reflexivity) Hva Ha) as [Hk Hge].
    pose proof (SFdiv_atLeast_1 ma ea 8388608000000000 (-23)
                  ltac:(apply valid_digits in Hva; unfold prec in Hva; lia)
                  Hk Hge) as Hq.
    destruct (SFdiv prec emax (S754_finite false ma ea)
                (S754_finite false 8388608000000000 (-23)))
      as [s|s| |s mq eq]; try contradiction.
    + subst s. left. reflexivity.
    + destruct Hq as [-> Hq].
      pose proof (SFmul_atLeast_100 mq eq 7036874417766400 (-46)
                    ltac:(lia) ltac:(reflexivity) Hq) as Hy.
      destruct (SFmul prec emax (S754_finite false mq eq)
                  (S754_finite false 7036874417766400 (-46)))
        as [s|s| |s my ey]; try contradiction.
      * subst s. now left.
      * destruct Hy as [-> Hy]. right. exists my, ey. split; [reflexivity|].
        apply atLeast_100_not_below;
          [lia | reflexivity | apply Z.leb_le; reflexivity | exact Hvy
          | exact Hy].
Qed.

(** X21. When the amount is at least MAX_VALUATION = 1e9, Infinity
    included, the percentage is exactly 100. *)
Theorem percentage_full_at_ceiling (data : SimulationData) :
  JS.geb (amount (calculateValuation data)) MAX_VALUATION = true ->
  percentage (calculateValuation data) = 100%float.
Proof.
  intros Ha. cbn [calculateValuation percentage amount] in *.
  apply Math_min_100_at_least. exact (scaled_at_ceiling _ Ha).
Qed.

Lemma percentage_full_at_ceiling_witness :
  let data := {| ebitda := 1000000; interestRate := 20; multiple := 500;
                 factorScore := 5; companyName := VStr "ABC Corp.";
                 description := VStr "A company" |} in
  JS.geb (amount (calculateValuation data)) MAX_VALUATION = true /\
  percentage (calculateValuation data) = 100%float.
Proof.
  intros data. split; [reflexivity|].
  exact (percentage_full_at_ceiling data eq_refl).
Defined.

(** *** Amounts that no tier takes *)

Lemma Prim2SF_neg_1e21 :
  Prim2SF (-1e21)%float = S754_finite true 7629394531250000 17.
Proof. reflexivity. Qed.

(** Nothing that carries a minus sign reaches a positive threshold. *)
Lemma geb_negative_false (a c : float) (mc : positive) (ec : Z) :
  Prim2SF c = S754_finite false mc ec ->
  sf_sign (Prim2SF a) = Some true -> JS.geb a c = false.
Proof.
  intros Hc Ha. unfold JS.geb. rewrite leb_spec, Hc. unfold SFleb, SFcompare.
  destruct (Prim2SF a) as [s|s| |s m e]; cbn [sf_sign] in Ha;
    try discriminate; injection Ha as ->; reflexivity.
Qed.

Lemma geb_nan_false (a c : float) (mc : positive) (ec : Z) :
  Prim2SF c = S754_finite false mc ec ->
  Prim2SF a = S754_nan -> JS.geb a c = false.
Proof.
  intros Hc Ha. unfold JS.geb. rewrite leb_spec, Hc, Ha. reflexivity.
Qed.

(** The order of two negative finite numbers is the reverse of that of their
    exponents, then of their mantissas. *)
Lemma SFltb_finite_neg (m : positive) (e : Z) (mc : positive) (ec : Z) :
  SFltb (S754_finite true mc ec) (S754_finite true m e) = true ->
  e < ec \/ (e = ec /\ Z.pos m < Z.pos mc).
Proof.
  unfold SFltb, SFcompare. destruct (ec ?= e) eqn:He.
  - apply Z.compare_eq in He. rewrite Pos.compare_cont_spec.
    unfold Pos.switch_Eq.
    destruct (Pos.compare_spec mc m) as [Hm|Hm|Hm]; try discriminate.
    intros _. right. split; [now symmetry | now apply Pos2Z.pos_lt_pos].
  - discriminate.
  - rewrite Z.compare_gt_iff in He. auto.
Qed.

(** X22. Amounts that no tier takes get no suffix: NaN is written $NaN,
    and a negative amount is written $ followed by its toFixed(0), which for
    amounts above -1e21 is $- followed by a numeral, as in $-2500000. *)
Theorem formatCurrency_outside_tiers (a : float) :
  (is_nan a = true -> formatCurrency a = "$NaN") /\
  ((a <? 0)%float = true ->
   formatCurrency a = "$" +:+ JS.toFixed a 0 /\
   ((-1e21 <? a)%float = true ->
    exists v : string, numeral v = true /\ formatCurrency a = "$-" +:+ v)).
Proof.
  split.
  - intros Hn. apply is_nan_spec in Hn. unfold formatCurrency.
    rewrite (geb_nan_false a _ _ _ Prim2SF_1e9 Hn),
            (geb_nan_false a _ _ _ Prim2SF_1e6 Hn),
            (geb_nan_false a _ _ _ Prim2SF_1e3 Hn).
    unfold JS.toFixed. rewrite Hn. reflexivity.
  - intros Hneg. pose proof (ltb_zero_sign a Hneg) as Hs.
    assert (Hf : formatCurrency a = "$" +:+ JS.toFixed a 0).
    { unfold formatCurrency.
      now rewrite (geb_negative_false a _ _ _ Prim2SF_1e9 Hs),
                  (geb_negative_false a _ _ _ Prim2SF_1e6 Hs),
                  (geb_negative_false a _ _ _ Prim2SF_1e3 Hs). }
    split; [exact Hf|]. intros Hlo. rewrite Hf.
    rewrite ltb_spec in Hneg, Hlo. rewrite Prim2SF_neg_1e21 in Hlo.
    replace (Prim2SF 0%float) with (S754_zero false) in Hneg by reflexivity.
    pose proof (Prim2SF_valid a) as Hv. unfold JS.toFixed.
    destruct (Prim2SF a) as [s|s| |s m e]; cbn [sf_sign] in Hs;
      try discriminate Hs; injection Hs as ->.
    + discriminate Hneg.
    + discriminate Hlo.
    + assert (Hc : (10 ^ 21 * JS.exact_den e <=? JS.exact_num m e) = false).
      { apply SFltb_finite_neg in Hlo. destruct Hlo as [He|[-> Hm]].
        - apply small_belowCutoff. apply valid_digits in Hv.
          unfold prec in Hv. lia.
        - now apply cutoff_17. }
      cbv zeta. rewrite Hc.
      set (n := (2 * JS.exact_num m e * 10 ^ Z.of_nat 0 + JS.exact_den e)
                / (2 * JS.exact_den e)).
      exists (JS.placePoint n 0). split; [apply placePoint_0 | reflexivity].
Qed.

Lemma formatCurrency_outside_tiers_witness :
  is_nan (0 / 0)%float = true /\ formatCurrency (0 / 0)%float = "$NaN" /\
  (-2500000 <? 0)%float = true /\ (-1e21 <? -2500000)%float = true /\
  formatCurrency (-2500000)%float = "$-2500000" /\
  (exists v : string,
     numeral v = true /\ formatCurrency (-2500000)%float = "$-" +:+ v).
Proof.
  split; [reflexivity|].
  split; [exact (proj1 (formatCurrency_outside_tiers (0 / 0)%float) eq_refl)|].
  split; [reflexivity|]. split; [reflexivity|]. split; [reflexivity|].
  exact (proj2 (proj2 (formatCurrency_outside_tiers (-2500000)%float) eq_refl)
           eq_refl).
Defined.

(** *** The chart *)

(** Clamping at 100 a second time changes nothing. *)
Lemma Math_min_100_idempotent (y : float) :
  JS.Math_min (JS.Math_min y 100) 100 = JS.Math_min y 100.
Proof.
  unfold JS.Math_min. destruct (is_nan y) eqn:Hn; [reflexivity|].
  change (is_nan 100) with false. cbn [orb].
  destruct (y <? 100)%float eqn:H1; [now rewrite Hn, H1|].
  destruct (100 <? y)%float eqn:H2; [reflexivity|].
  destruct (get_sign y) eqn:H3; [now rewrite Hn, H1, H2, H3 | reflexivity].
Qed.

Lemma SFleb_finite_true (m : positive) (e : Z) (mc : positive) (ec : Z) :
  SFleb (S754_finite false m e) (S754_finite false mc ec) = true -> e <= ec.
Proof.
  unfold SFleb, SFcompare. destruct (e ?= ec) eqn:He.
  - apply Z.compare_eq in He. lia.
  - rewrite Z.compare_lt_iff in He. lia.
  - discriminate.
Qed.

(** [toFixed] of a number between 0 and 100 takes the decimal branch. *)
Lemma le_100_belowCutoff (p : float) :
  (0 <=? p)%float = true -> (p <=? 100)%float = true ->
  belowCutoff (Prim2SF p).
Proof.
  intros H0 H100. apply leb_zero_spec in H0.
  rewrite leb_spec, Prim2SF_100 in H100.
  pose proof (Prim2SF_valid p) as Hv.
  destruct (Prim2SF p) as [s|s| |s m e]; cbn [belowCutoff].
  - exact I.
  - destruct H0 as [[s' Hs]|Hs]; [discriminate Hs|].
    injection Hs as ->. unfold SFleb, SFcompare in H100. discriminate H100.
  - destruct H0 as [[s' Hs]|Hs]; discriminate Hs.
  - destruct H0 as [[s' Hs]|Hs]; [discriminate Hs|]. injection Hs as ->.
    apply SFleb_finite_true in H100. apply valid_digits in Hv.
    split; [reflexivity|]. apply small_belowCutoff. unfold prec in Hv. lia.
Qed.

(** X23. In a reachable state the clamp of the chart changes nothing: the
    percentage it draws is the stored one.  Its label is toFixed(0) of that
    percentage followed by a percent sign: it is 100% when the amount is at
    least the ceiling, a numeral followed by % when the amount is not
    negative, and NaN% when the amount is NaN. *)
Theorem valuationChart_label (state : AppState) :
  reachable state ->
  let v := valuation state in
  ValuationChart_percentage v = percentage v /\
  ValuationChart_label v = JS.toFixed (percentage v) 0 +:+ "%" /\
  (JS.geb (amount v) (maxValuation v) = true ->
   ValuationChart_label v = "100%") /\
  ((0 <=? amount v)%float = true ->
   exists t : string, numeral t = true /\ ValuationChart_label v = t +:+ "%") /\
  (is_nan (amount v) = true -> ValuationChart_label v = "NaN%").
Proof.
  intros Hr v.
  pose proof (inv_valuation _ (reachable_invariant _ Hr)) as Hval.
  assert (Hp : ValuationChart_percentage v = percentage v).
  { subst v. unfold ValuationChart_percentage. rewrite Hval.
    cbn [calculateValuation percentage]. apply Math_min_100_idempotent. }
  assert (Hl : ValuationChart_label v = JS.toFixed (percentage v) 0 +:+ "%")
    by (unfold ValuationChart_label; now rewrite Hp).
  split; [exact Hp|]. split; [exact Hl|]. rewrite Hl. subst v. rewrite Hval.
  cbn [calculateValuation percentage amount maxValuation].
  set (a := (ebitda (simulation state) * multiple (simulation state)
             * factorScore (simulation state))%float).
  split; [|split].
  - intros Ha.
    rewrite (Math_min_100_at_least _ (scaled_at_ceiling a Ha)). reflexivity.
  - intros Ha. eexists. split; [|reflexivity].
    apply toFixed_0_numeral, le_100_belowCutoff.
    + apply Math_min_100_nonneg. now apply scaled_nonneg.
    + apply Math_min_100_le, scaled_not_nan. now apply leb_zero_not_nan.
  - intros Ha. apply is_nan_spec in Ha.
    assert (Hy : is_nan (a / MAX_VALUATION * 100)%float = true).
    { apply is_nan_spec. pose proof (scaled_sign a) as Hs. rewrite Ha in Hs.
      destruct (Prim2SF (a / MAX_VALUATION * 100)%float); try discriminate Hs.
      reflexivity. }
    unfold JS.Math_min. rewrite Hy. reflexivity.
Qed.

Lemma valuationChart_label_witness :
  reachable initialState /\
  (0 <=? amount (valuation initialState))%float = true /\
  ValuationChart_percentage (valuation initialState)
  = percentage (valuation initialState) /\
  exists t : string,
    numeral t = true /\
    ValuationChart_label (valuation initialState) = t +:+ "%".
Proof.
  assert (Hr : reachable initialState) by exact (reachable_start ∅).
  pose proof (valuationChart_label initialState Hr) as H. cbv zeta in H.
  destruct H as (H1 & _ & _ & H4 & _).
  split; [exact Hr|]. split; [reflexivity|]. split; [exact H1|].
  exact (H4 eq_refl).
Defined.
